(** * particles_vedo.py: the render-state synchronisation and loop
      orchestration layer of the 2D particle simulation.

    The three classes of [particles_vedo.py] ([Particle], [Particles],
    [ParticleSimulation]) are embedded as functions over an explicit
    [world]: the numpy arrays, the vedo objects and the state of the Fortran
    extension module [particle_driver], together with the trace of the calls
    made to these collaborators.  Python objects that are shared by reference
    (the arrays, the vedo [Sphere]s, the [Plotter]) live in stores indexed by
    location; objects with a single owner ([Particle] inside [Particles]
    inside [ParticleSimulation]) are plain records. *)

From Stdlib Require Import ZArith List String.
From Corelib Require Import PrimFloat.
From stdpp Require Import base list strings.
Import ListNotations.

Local Open Scope string_scope.
Local Open Scope list_scope.
Local Open Scope Z_scope.

(* A decimal literal denotes the closest binary64 value, as it does in
   Python. *)
Set Warnings "-inexact-float".

(** ** Values *)

(** numpy's ['d'] and Python's [float]. *)
Abbreviation double := float.

Definition vec2 : Type := double * double.
Definition vec3 : Type := double * double * double.

(** A location in one of the stores of the [world]. *)
Definition loc := nat.

(** A row [a[i]] of a numpy array of shape [n,3]: numpy hands out a view, so
    the row is read through the array every time. *)
Record view := View { v_base : loc; v_row : nat }.

(** The Python exceptions the code can raise.  [DanglingRef] is not a Python
    exception: it is what the embedding answers when a location is not in its
    store, which no Python reference ever is. *)
Inductive exn :=
| ValueError      (* np.zeros with a negative dimension, shapes that do not broadcast *)
| AttributeError  (* a method or attribute of None, an attribute not yet assigned *)
| IndexError      (* a[i] with i out of range *)
| DanglingRef.

(** ** The collaborators *)

(** vedo: what [addTrail] records on a sphere. *)
Record trail := mkTrail {
  t_alpha : Z; t_maxlength : Z; t_n : Z; t_c : string }.

(** vedo: a [Sphere] actor. *)
Record sphere := mkSphere {
  s_pos : vec3; s_r : double; s_c : string; s_res : Z;
  s_trail : option trail }.

(** vedo: a [Plotter].  [pl_escaped k] is the value of the attribute
    [escaped] once [k] frames have been shown ([None]: this vedo version has
    no such attribute); it is set by vedo's key handler, outside the code. *)
Record plotter := mkPlotter {
  pl_actors : list loc;
  pl_frames : nat;
  pl_escaped : nat -> option bool }.

(** The calls made to the collaborators, in the order they are made. *)
Inductive event :=
| EvDeallocate
| EvInit (n : Z) (r_min r_max v_max : double)
| EvGetSizes (buf : loc)
| EvGetPositions (buf : loc)
| EvCollisionCheck
| EvBoundaryCheck
| EvUpdate
| EvSphere (s : loc)
| EvAddTrail (s : loc)
| EvSpherePos (s : loc) (xyz : vec3)
| EvAdd (plt : loc) (s : loc)
| EvShow (plt : loc) (resetcam : bool) (axes : Z)
| EvPrint (msg : string).

(** The Fortran extension module [particle_driver], an opaque collaborator:
    its state and what each of its subroutines does to it.  The two getters
    fill the array they are given in place, entry by entry. *)
Class ParticleDriver (E : Type) := {
  drv_init_system : Z -> double -> double -> double -> E -> E;
  drv_size : E -> nat -> double;
  drv_position : E -> nat -> vec2;
  drv_collision_check : E -> E;
  drv_boundary_check : E -> E;
  drv_update : E -> E;
  drv_deallocate_system : E -> E }.

(** ** The world *)

Record world (E : Type) := mkWorld {
  arr_xy : list (list vec2);     (* numpy arrays of shape [n,2] *)
  arr_xyz : list (list vec3);    (* numpy arrays of shape [n,3] *)
  arr_1d : list (list double);   (* numpy arrays of shape [n] *)
  spheres : list sphere;
  plotters : list plotter;
  driver : E;
  events : list event }.
Arguments mkWorld {E}.
Arguments arr_xy {E}.
Arguments arr_xyz {E}.
Arguments arr_1d {E}.
Arguments spheres {E}.
Arguments plotters {E}.
Arguments driver {E}.
Arguments events {E}.

(** What a call leaves behind: a value, or an exception, and the world as it
    is at that point. *)
Inductive outcome (E A : Type) :=
| Ret (a : A) (w : world E)
| Raise (e : exn) (w : world E).
Arguments Ret {E A}.
Arguments Raise {E A}.

Definition M (E A : Type) : Type := world E -> outcome E A.

Definition ret {E A} (a : A) : M E A := fun w => Ret a w.
Definition raise {E A} (e : exn) : M E A := fun w => Raise e w.
Definition bind {E A B} (m : M E A) (k : A -> M E B) : M E B :=
  fun w => match m w with
           | Ret a w' => k a w'
           | Raise e w' => Raise e w'
           end.

Notation "'let*' x := m 'in' k" := (bind m (fun x => k))
  (at level 10, x name, m at level 100, k at level 200).

(** Where an outcome leaves the world. *)
Definition world_of {E A} (o : outcome E A) : world E :=
  match o with Ret _ w => w | Raise _ w => w end.

Section Stores.
Context {E : Type}.

Definition set_arr_xy (f : list (list vec2) -> list (list vec2)) (w : world E) :=
  mkWorld (f (arr_xy w)) (arr_xyz w) (arr_1d w) (spheres w) (plotters w)
          (driver w) (events w).
Definition set_arr_xyz (f : list (list vec3) -> list (list vec3)) (w : world E) :=
  mkWorld (arr_xy w) (f (arr_xyz w)) (arr_1d w) (spheres w) (plotters w)
          (driver w) (events w).
Definition set_arr_1d (f : list (list double) -> list (list double)) (w : world E) :=
  mkWorld (arr_xy w) (arr_xyz w) (f (arr_1d w)) (spheres w) (plotters w)
          (driver w) (events w).
Definition set_spheres (f : list sphere -> list sphere) (w : world E) :=
  mkWorld (arr_xy w) (arr_xyz w) (arr_1d w) (f (spheres w)) (plotters w)
          (driver w) (events w).
Definition set_plotters (f : list plotter -> list plotter) (w : world E) :=
  mkWorld (arr_xy w) (arr_xyz w) (arr_1d w) (spheres w) (f (plotters w))
          (driver w) (events w).
Definition set_driver (f : E -> E) (w : world E) :=
  mkWorld (arr_xy w) (arr_xyz w) (arr_1d w) (spheres w) (plotters w)
          (f (driver w)) (events w).

(** Record one call to a collaborator. *)
Definition emit (ev : event) : M E unit :=
  fun w => Ret tt (mkWorld (arr_xy w) (arr_xyz w) (arr_1d w) (spheres w)
                           (plotters w) (driver w) (events w ++ [ev])).

(** Read through a reference. *)
Definition load {A} (store : world E -> list A) (l : loc) : M E A :=
  fun w => match store w !! l with
           | Some a => Ret a w
           | None => Raise DanglingRef w
           end.

(** Python's [print]. *)
Definition print (msg : string) : M E unit := emit (EvPrint msg).
End Stores.

(** ** numpy: the three array shapes the code allocates *)

(** [a[:, :2] = b] for [a] of shape [n,3] and [b] of shape [m,2]: numpy
    broadcasts [b] when it has the rows of [a] or a single row, and
    refuses other shapes. *)
Definition broadcast_xy (dst : list vec3) (src : list vec2) : option (list vec3) :=
  if decide (length src = length dst)
  then Some (zip_with (fun d s => (s.1, s.2, d.2)) dst src)
  else match src with
       | [s] => Some (map (fun d => (s.1, s.2, d.2)) dst)
       | _ => None
       end.

Module np.
Section np.
Context {E : Type}.

(** [np.zeros([n, 2], 'd', order='F')] *)
Definition zeros_xy (n : Z) : M E loc :=
  fun w => if n <? 0 then Raise ValueError w
           else Ret (length (arr_xy w))
                    (set_arr_xy (fun h => h ++ [repeat (0%float, 0%float) (Z.to_nat n)]) w).

(** [np.zeros([n, 3], 'd')] *)
Definition zeros_xyz (n : Z) : M E loc :=
  fun w => if n <? 0 then Raise ValueError w
           else Ret (length (arr_xyz w))
                    (set_arr_xyz (fun h => h ++ [repeat (0%float, 0%float, 0%float) (Z.to_nat n)]) w).

(** [np.zeros([n], 'd', order='F')] *)
Definition zeros_1d (n : Z) : M E loc :=
  fun w => if n <? 0 then Raise ValueError w
           else Ret (length (arr_1d w))
                    (set_arr_1d (fun h => h ++ [repeat 0%float (Z.to_nat n)]) w).

(** [a[:, :2] = b] *)
Definition assign_xy (a b : loc) : M E unit :=
  let* src := load arr_xy b in
  let* dst := load arr_xyz a in
  match broadcast_xy dst src with
  | Some rows => fun w => Ret tt (set_arr_xyz (fun h => <[a := rows]> h) w)
  | None => raise ValueError
  end.

(** [a[:, 2] = z] *)
Definition assign_z (a : loc) (z : double) : M E unit :=
  let* dst := load arr_xyz a in
  fun w => Ret tt (set_arr_xyz (fun h => <[a := map (fun d => (d.1, z)) dst]> h) w).

(** [a[i]] for [a] of shape [n,3] and [i >= 0]: a view of row [i]. *)
Definition getitem (a : loc) (i : nat) : M E view :=
  let* rows := load arr_xyz a in
  if decide (i < length rows)%nat then ret (View a i) else raise IndexError.

(** The coordinates a view shows at the moment it is read. *)
Definition read (v : view) : M E vec3 :=
  let* rows := load arr_xyz (v_base v) in
  match rows !! v_row v with
  | Some xyz => ret xyz
  | None => raise DanglingRef
  end.
End np.
End np.

(** ** vedo *)

Module vedo.
Section vedo.
Context {E : Type}.

(** [Sphere(pos, r=r, c=c, res=res)] *)
Definition Sphere (pos : vec3) (r : double) (c : string) (res : Z) : M E loc :=
  fun w => let s := length (spheres w) in
           match emit (EvSphere s) w with
           | Ret _ w' => Ret s (set_spheres (fun h => h ++ [mkSphere pos r c res None]) w')
           | Raise e w' => Raise e w'
           end.

(** [s.addTrail(alpha=.., maxlength=.., n=.., c=..)] *)
Definition addTrail (s : loc) (alpha maxlength n : Z) (c : string) : M E unit :=
  let* sph := load spheres s in
  let* _ := emit (EvAddTrail s) in
  fun w => Ret tt (set_spheres
    (fun h => <[s := mkSphere (s_pos sph) (s_r sph) (s_c sph) (s_res sph)
                              (Some (mkTrail alpha maxlength n c))]> h) w).

(** [s.pos(xyz)] *)
Definition pos (s : loc) (xyz : vec3) : M E unit :=
  let* sph := load spheres s in
  let* _ := emit (EvSpherePos s xyz) in
  fun w => Ret tt (set_spheres
    (fun h => <[s := mkSphere xyz (s_r sph) (s_c sph) (s_res sph) (s_trail sph)]> h) w).

(** [plt.add(s)]; [plt] may be [None]. *)
Definition add (plt : option loc) (s : loc) : M E unit :=
  match plt with
  | None => raise AttributeError
  | Some l =>
      let* p := load plotters l in
      let* _ := emit (EvAdd l s) in
      fun w => Ret tt (set_plotters
        (fun h => <[l := mkPlotter (pl_actors p ++ [s]) (pl_frames p) (pl_escaped p)]> h) w)
  end.

(** [plt.show(resetcam=.., axes=..)] *)
Definition show (plt : option loc) (resetcam : bool) (axes : Z) : M E unit :=
  match plt with
  | None => raise AttributeError
  | Some l =>
      let* p := load plotters l in
      let* _ := emit (EvShow l resetcam axes) in
      fun w => Ret tt (set_plotters
        (fun h => <[l := mkPlotter (pl_actors p) (S (pl_frames p)) (pl_escaped p)]> h) w)
  end.

(** [getattr(plt, "escaped", dflt)] *)
Definition getattr_escaped (plt : option loc) (dflt : bool) : M E bool :=
  match plt with
  | None => ret dflt
  | Some l =>
      let* p := load plotters l in
      ret (default dflt (pl_escaped p (pl_frames p)))
  end.
End vedo.
End vedo.

(** ** particle_driver: the calls into the Fortran module *)

Module particle_driver.
Section particle_driver.
Context {E : Type} `{!ParticleDriver E}.

Definition call (ev : event) (f : E -> E) : M E unit :=
  let* _ := emit ev in
  fun w => Ret tt (set_driver f w).

Definition deallocate_system : M E unit :=
  call EvDeallocate drv_deallocate_system.

Definition init_system (n : Z) (r_min r_max v_max : double) : M E unit :=
  call (EvInit n r_min r_max v_max) (drv_init_system n r_min r_max v_max).

(** [get_sizes(buf)]: fills [buf] in place. *)
Definition get_sizes (buf : loc) : M E unit :=
  let* old := load arr_1d buf in
  let* _ := emit (EvGetSizes buf) in
  fun w => Ret tt (set_arr_1d
    (fun h => <[buf := imap (fun i _ => drv_size (driver w) i) old]> h) w).

(** [get_positions(buf)]: fills [buf] in place. *)
Definition get_positions (buf : loc) : M E unit :=
  let* old := load arr_xy buf in
  let* _ := emit (EvGetPositions buf) in
  fun w => Ret tt (set_arr_xy
    (fun h => <[buf := imap (fun i _ => drv_position (driver w) i) old]> h) w).

Definition collision_check : M E unit := call EvCollisionCheck drv_collision_check.
Definition boundary_check : M E unit := call EvBoundaryCheck drv_boundary_check.
Definition update : M E unit := call EvUpdate drv_update.
End particle_driver.
End particle_driver.

(** ** class Particle *)

Module Particle.
Record t := mk {
  __pos : view;
  __plt : option loc;
  __r : double;
  __color : string;
  __res : Z;
  use_trail : bool;
  vsphere : loc }.

(** The defaults of [__init__]'s keyword arguments. *)
Definition default_radius : double := 0.1%float.
Definition default_color : string := "gray".
Definition default_res : Z := 8.
Definition default_use_trail : bool := false.

Section Particle.
Context {E : Type}.

Definition __init__ (plt : option loc) (pos : view) (radius : double)
    (color : string) (res : Z) (trail : bool) : M E t :=
  let self_pos := pos in
  let self_plt := plt in
  let self_r := radius in
  let self_color := "gray" in
  let self_res := res in
  let self_use_trail := trail in
  let* xyz := np.read self_pos in
  let* s := vedo.Sphere xyz self_r self_color self_res in
  let* _ := (if self_use_trail then vedo.addTrail s 1 1 50 "g" else ret tt) in
  let* _ := vedo.add self_plt s in
  ret (mk self_pos self_plt self_r self_color self_res self_use_trail s).

(** The property [pos] and its setter. *)
Definition pos (self : t) : view := __pos self.
Definition set_pos (p : view) (self : t) : M E t :=
  let self := mk p (__plt self) (__r self) (__color self) (__res self)
                 (use_trail self) (vsphere self) in
  let* xyz := np.read (__pos self) in
  let* _ := vedo.pos (vsphere self) xyz in
  ret self.

(** The property [r] and its setter. *)
Definition r (self : t) : double := __r self.
Definition set_r (v : double) (self : t) : M E t :=
  ret (mk (__pos self) (__plt self) v (__color self) (__res self)
          (use_trail self) (vsphere self)).

(** The property [color] and its setter. *)
Definition color (self : t) : string := __color self.
Definition set_color (c : string) (self : t) : M E t :=
  ret (mk (__pos self) (__plt self) (__r self) c (__res self)
          (use_trail self) (vsphere self)).

(** The property [res] and its setter. *)
Definition res (self : t) : Z := __res self.
Definition set_res (v : Z) (self : t) : M E t :=
  ret (mk (__pos self) (__plt self) (__r self) (__color self) v
          (use_trail self) (vsphere self)).
End Particle.
End Particle.

(** ** class Particles *)

Module Particles.
Record t := mk {
  __positions : loc;
  __sizes : loc;
  __plt : option loc;
  __particles : list Particle.t }.

Section Particles.
Context {E : Type}.

(** The [for] loop of [__init__] over [zip(positions, sizes)]. *)
Fixpoint init_loop (plt : option loc) (items : list (view * double))
    (acc : list Particle.t) : M E (list Particle.t) :=
  match items with
  | [] => ret acc
  | (pos, size) :: rest =>
      let* p := Particle.__init__ plt pos size Particle.default_color
                  Particle.default_res Particle.default_use_trail in
      init_loop plt rest (acc ++ [p])
  end.

(** Iterating over an array of shape [n,3] yields the views of its rows;
    iterating over an array of shape [n] yields its entries. *)
Definition rows_of (a : loc) (n : nat) : list view := map (View a) (seq 0 n).

Definition __init__ (plt : option loc) (positions sizes : loc) : M E t :=
  let* rows := load arr_xyz positions in
  let* szs := load arr_1d sizes in
  let* ps := init_loop plt (zip (rows_of positions (length rows)) szs) [] in
  ret (mk positions sizes plt ps).

(** The [for] loop of [update] over [enumerate(self.__particles)]. *)
Fixpoint update_loop (positions : loc) (i : nat) (ps : list Particle.t)
    : M E (list Particle.t) :=
  match ps with
  | [] => ret []
  | p :: rest =>
      let* v := np.getitem positions i in
      let* p' := Particle.set_pos v p in
      let* rest' := update_loop positions (S i) rest in
      ret (p' :: rest')
  end.

Definition update (self : t) : M E t :=
  let* ps := update_loop (__positions self) 0 (__particles self) in
  ret (mk (__positions self) (__sizes self) (__plt self) ps).
End Particles.
End Particles.

(** ** class ParticleSimulation *)

Module ParticleSimulation.
(** The arrays and the collection are attributes that exist only once
    [__init_system] has assigned them: [None] is "not yet assigned". *)
Record t := mk {
  __n_particles : Z;
  __r_min : double;
  __r_max : double;
  __v_max : double;
  __plt : option loc;
  __initialised : bool;
  __particles : option Particles.t;
  __positions : option loc;
  __positions_3d : option loc;
  __sizes : option loc }.

(** The defaults of [__init__]'s keyword arguments. *)
Definition default_n_particles : Z := 50.
Definition default_r_min : double := 0.035%float.
Definition default_r_max : double := 0.085%float.
Definition default_v_max : double := 0.009%float.

(** The properties, read. *)
Definition n_particles (self : t) : Z := __n_particles self.
Definition r_min (self : t) : double := __r_min self.
Definition r_max (self : t) : double := __r_max self.
Definition v_max (self : t) : double := __v_max self.
Definition plt (self : t) : option loc := __plt self.
Definition initialised (self : t) : bool := __initialised self.

Section ParticleSimulation.
Context {E : Type} `{!ParticleDriver E}.

(** Reading an attribute that may not have been assigned yet. *)
Definition attr {A} (a : option A) : M E A :=
  match a with
  | Some x => ret x
  | None => raise AttributeError
  end.

(** [__init_system], up to and including the copy of the positions into
    the 3D buffer: the arrays [(positions, positions_3d, sizes)]. *)
Definition init_buffers (self : t) : M E (loc * loc * loc) :=
  let* _ := (if initialised self then particle_driver.deallocate_system else ret tt) in
  let* positions := np.zeros_xy (n_particles self) in
  let* positions_3d := np.zeros_xyz (n_particles self) in
  let* sizes := np.zeros_1d (n_particles self) in
  let* _ := print "Initialise system..." in
  let* _ := particle_driver.init_system
              (__n_particles self) (__r_min self) (__r_max self) (__v_max self) in
  let* _ := particle_driver.get_sizes sizes in
  let* _ := particle_driver.get_positions positions in
  let* _ := np.assign_xy positions_3d positions in
  let* _ := np.assign_z positions_3d 0%float in
  ret (positions, positions_3d, sizes).

Definition __init_system (self : t) : M E t :=
  let* bufs := init_buffers self in
  let '(positions, positions_3d, sizes) := bufs in
  let* particles := Particles.__init__ (__plt self) positions_3d sizes in
  ret (mk (__n_particles self) (__r_min self) (__r_max self) (__v_max self)
          (__plt self) true (Some particles)
          (Some positions) (Some positions_3d) (Some sizes)).

Definition __init__ (plt : option loc) (n_particles : Z)
    (r_min r_max v_max : double) : M E t :=
  __init_system (mk n_particles r_min r_max v_max plt false None None None None).

(** One iteration of the loop of [run], in three parts: the calls into
    the driver, ... *)
Definition run_step (self : t) : M E unit :=
  let* _ := particle_driver.collision_check in
  let* _ := particle_driver.boundary_check in
  let* _ := particle_driver.update in
  let* positions := attr (__positions self) in
  particle_driver.get_positions positions.

(** ... the copy of the positions into the 3D buffer, ... *)
Definition run_sync (self : t) : M E unit :=
  let* positions := attr (__positions self) in
  let* positions_3d := attr (__positions_3d self) in
  np.assign_xy positions_3d positions.

(** ... and the update of the spheres, the frame and the test of [escaped]:
    the object, the new value of [reset_cam] and whether the loop breaks. *)
Definition run_present (self : t) (reset_cam : bool) : M E (t * bool * bool) :=
  let* particles := attr (__particles self) in
  let* particles := Particles.update particles in
  let self := mk (__n_particles self) (__r_min self) (__r_max self) (__v_max self)
                 (__plt self) (__initialised self) (Some particles)
                 (__positions self) (__positions_3d self) (__sizes self) in
  let* _ := vedo.show (__plt self) reset_cam 1 in
  let reset_cam := if reset_cam then false else reset_cam in
  let* escaped := vedo.getattr_escaped (__plt self) false in
  ret (self, reset_cam, escaped).

Definition run_body (self : t) (reset_cam : bool) : M E (t * bool * bool) :=
  let* _ := run_step self in
  let* _ := run_sync self in
  run_present self reset_cam.

(** How far a [while True] loop has come when the fuel is used up, or how
    it ended. *)
Inductive run_result :=
| Exited (self : t) (w : world E)
| Raised (e : exn) (w : world E)
| Running (self : t) (reset_cam : bool) (w : world E).

Fixpoint run_loop (fuel : nat) (self : t) (reset_cam : bool) (w : world E)
    : run_result :=
  match fuel with
  | O => Running self reset_cam w
  | S fuel =>
      match run_body self reset_cam w with
      | Raise e w' => Raised e w'
      | Ret (self', reset_cam', escaped) w' =>
          if escaped then Exited self' w'
          else run_loop fuel self' reset_cam' w'
      end
  end.

Definition run (fuel : nat) (self : t) (w : world E) : run_result :=
  match print "Run simulation..." w with
  | Raise e w' => Raised e w'
  | Ret _ w' => let reset_cam := true in run_loop fuel self reset_cam w'
  end.

Definition __del__ (self : t) : M E unit :=
  let* _ := print "End simulation..." in
  particle_driver.deallocate_system.

(** The setters of the properties. *)
Definition set_n_particles (n : Z) (self : t) : M E t :=
  __init_system (mk n (__r_min self) (__r_max self) (__v_max self)
                    (__plt self) (__initialised self) (__particles self)
                    (__positions self) (__positions_3d self) (__sizes self)).

Definition set_r_min (v : double) (self : t) : M E t :=
  __init_system (mk (__n_particles self) v (__r_max self) (__v_max self)
                    (__plt self) (__initialised self) (__particles self)
                    (__positions self) (__positions_3d self) (__sizes self)).

Definition set_r_max (v : double) (self : t) : M E t :=
  __init_system (mk (__n_particles self) (__r_min self) v (__v_max self)
                    (__plt self) (__initialised self) (__particles self)
                    (__positions self) (__positions_3d self) (__sizes self)).

Definition set_v_max (v : double) (self : t) : M E t :=
  __init_system (mk (__n_particles self) (__r_min self) (__r_max self) v
                    (__plt self) (__initialised self) (__particles self)
                    (__positions self) (__positions_3d self) (__sizes self)).

Definition set_plt (p : option loc) (self : t) : M E t :=
  ret (mk (__n_particles self) (__r_min self) (__r_max self) (__v_max self)
          p (__initialised self) (__particles self)
          (__positions self) (__positions_3d self) (__sizes self)).

Definition set_initialised (flag : bool) (self : t) : M E t :=
  ret (mk (__n_particles self) (__r_min self) (__r_max self) (__v_max self)
          (__plt self) flag (__particles self)
          (__positions self) (__positions_3d self) (__sizes self)).
End ParticleSimulation.
End ParticleSimulation.

(** ** A driver to run the code against *)

(** A stand-in for the Fortran module: it counts allocations and steps, and
    reports two particles moving along the diagonal. *)
Record mock := mkMock {
  mock_allocated : bool;
  mock_count : Z;
  mock_steps : nat }.

#[export] Instance mock_driver : ParticleDriver mock := {|
  drv_init_system n _ _ _ _ := mkMock true n 0;
  drv_size _ i := match i with O => 0.015%float | _ => 0.045%float end;
  drv_position e i :=
    match mock_steps e, i with
    | O, O => (0.1%float, 0.2%float)
    | O, _ => (0.3%float, 0.4%float)
    | _, O => (0.5%float, 0.6%float)
    | _, _ => (0.7%float, 0.8%float)
    end;
  drv_collision_check e := e;
  drv_boundary_check e := e;
  drv_update e := mkMock (mock_allocated e) (mock_count e) (S (mock_steps e));
  drv_deallocate_system e := mkMock false (mock_count e) (mock_steps e) |}.

(** A world with one plotter, in which ESC is pressed during frame [k], and
    nothing else. *)
Definition world0 (k : nat) : world mock :=
  mkWorld [] [] [] []
    [mkPlotter [] 0 (fun n => Some (k <=? n)%nat)]
    (mkMock false 0 0) [].

(** [ParticleSimulation(plt, 2, 0.015, 0.045, 0.009)] in that world, with ESC
    during the third frame: the object before [__init_system], the call, and
    the object and the world it leaves. *)
Definition demo_new : ParticleSimulation.t :=
  ParticleSimulation.mk 2 0.015%float 0.045%float 0.009%float (Some 0%nat)
    false None None None None.

Definition demo : outcome mock ParticleSimulation.t :=
  ParticleSimulation.__init__ (Some 0%nat) 2 0.015%float 0.045%float 0.009%float
    (world0 3).

Definition demo_self : ParticleSimulation.t :=
  match demo with
  | Ret self _ => self
  | Raise _ _ => demo_new
  end.

Definition demo_world : world mock := world_of demo.

Definition demo_plotter : plotter :=
  default (mkPlotter [] 0 (fun _ => None)) (plotters demo_world !! 0%nat).

(** A world with a position array of three rows, a size array of two
    entries and a plotter. *)
Definition world_3_2 : world mock :=
  mkWorld []
    [[(0%float, 0%float, 0%float); (1%float, 1%float, 0%float);
      (2%float, 2%float, 0%float)]]
    [[0.5%float; 0.25%float]]
    []
    [mkPlotter [] 0 (fun _ => None)]
    (mkMock false 0 0) [].

(** [Particles(plt, positions, sizes)] in that world. *)
Definition demo_collection : Particles.t :=
  match Particles.__init__ (Some 0%nat) 0%nat 0%nat world_3_2 with
  | Ret ps _ => ps
  | Raise _ _ => Particles.mk 0%nat 0%nat None []
  end.

Definition demo_collection_world : world mock :=
  world_of (Particles.__init__ (Some 0%nat) 0%nat 0%nat world_3_2).

(** [Particle(plt, positions[1], 0.25, 'red', 12, True)] in that world. *)
Definition demo_particle : Particle.t :=
  match Particle.__init__ (Some 0%nat) (View 0%nat 1%nat) 0.25%float "red" 12 true world_3_2 with
  | Ret p _ => p
  | Raise _ _ => Particle.mk (View 0%nat 1%nat) None 0%float "" 0 false 0%nat
  end.

Definition demo_particle_world : world mock :=
  world_of (Particle.__init__ (Some 0%nat) (View 0%nat 1%nat) 0.25%float "red" 12 true world_3_2).

(** The demo particle moved to row 2. *)
Definition demo_moved_particle : Particle.t :=
  match Particle.set_pos (View 0%nat 2%nat) demo_particle demo_particle_world with
  | Ret p _ => p
  | Raise _ _ => demo_particle
  end.

Definition demo_moved_world : world mock :=
  world_of (Particle.set_pos (View 0%nat 2%nat) demo_particle demo_particle_world).

(** One iteration of [run] on the demo object. *)
Definition demo_frame_self : ParticleSimulation.t :=
  match ParticleSimulation.run_body demo_self true demo_world with
  | Ret r _ => r.1.1
  | Raise _ _ => demo_self
  end.

Definition demo_frame_world : world mock :=
  world_of (ParticleSimulation.run_body demo_self true demo_world).

(** The demo object unplugged from its plotter. *)
Definition demo_unplugged : ParticleSimulation.t :=
  match ParticleSimulation.set_plt None demo_self demo_world with
  | Ret self _ => self
  | Raise _ _ => demo_self
  end.

(** The demo object with its flag cleared, and then a new [r_min]. *)
Definition demo_unflagged : ParticleSimulation.t :=
  match ParticleSimulation.set_initialised false demo_self demo_world with
  | Ret self _ => self
  | Raise _ _ => demo_self
  end.

Definition demo_rebuilt_self : ParticleSimulation.t :=
  match ParticleSimulation.set_r_min 0.02%float demo_unflagged demo_world with
  | Ret self _ => self
  | Raise _ _ => demo_self
  end.

Definition demo_rebuilt_world : world mock :=
  world_of (ParticleSimulation.set_r_min 0.02%float demo_unflagged demo_world).

(** [ParticleSimulation(plt, 2, 0.015, 0.045, 0.009)] on a plotter that has
    no attribute [escaped]. *)
Definition quiet_self : ParticleSimulation.t :=
  match ParticleSimulation.__init__ (Some 0%nat) 2 0.015%float 0.045%float
          0.009%float world_3_2 with
  | Ret self _ => self
  | Raise _ _ => demo_new
  end.

Definition quiet_world : world mock :=
  world_of (ParticleSimulation.__init__ (Some 0%nat) 2 0.015%float 0.045%float
              0.009%float world_3_2).

Definition quiet_plotter : plotter :=
  default (mkPlotter [] 0 (fun _ => None)) (plotters quiet_world !! 0%nat).

(** An object that is to have no particles and has no plotter. *)
Definition empty_new : ParticleSimulation.t :=
  ParticleSimulation.mk 0 0.015%float 0.045%float 0.009%float None
    false None None None None.

(** The demo object resized to three particles: the object as the setter of
    [n_particles] hands it to [__init_system], and what comes back. *)
Definition demo_resized_new : ParticleSimulation.t :=
  ParticleSimulation.mk 3
    (ParticleSimulation.__r_min demo_self) (ParticleSimulation.__r_max demo_self)
    (ParticleSimulation.__v_max demo_self) (ParticleSimulation.__plt demo_self)
    (ParticleSimulation.__initialised demo_self)
    (ParticleSimulation.__particles demo_self)
    (ParticleSimulation.__positions demo_self)
    (ParticleSimulation.__positions_3d demo_self)
    (ParticleSimulation.__sizes demo_self).

Definition demo_resized_self : ParticleSimulation.t :=
  match ParticleSimulation.set_n_particles 3 demo_self demo_world with
  | Ret self _ => self
  | Raise _ _ => demo_self
  end.

Definition demo_resized_world : world mock :=
  world_of (ParticleSimulation.set_n_particles 3 demo_self demo_world).

(** A world with two plotters, and
    [ParticleSimulation(plt, 2, 0.015, 0.045, 0.009)] built on the first of
    them; the second is spare and holds no actor. *)
Definition duo_spare : plotter := mkPlotter [] 0 (fun _ => None).

Definition world_two_plotters : world mock :=
  mkWorld [] [] [] []
    [mkPlotter [] 0 (fun n => Some (3 <=? n)%nat); duo_spare]
    (mkMock false 0 0) [].

Definition duo_self : ParticleSimulation.t :=
  match ParticleSimulation.__init__ (Some 0%nat) 2 0.015%float 0.045%float
          0.009%float world_two_plotters with
  | Ret self _ => self
  | Raise _ _ => demo_new
  end.

Definition duo_world : world mock :=
  world_of (ParticleSimulation.__init__ (Some 0%nat) 2 0.015%float 0.045%float
              0.009%float world_two_plotters).

(** * Properties *)

Local Open Scope nat_scope.

(** ** What the trace says *)

(** The values of [resetcam] in the calls of [show], in order. *)
Definition show_flag (ev : event) : list bool :=
  match ev with EvShow _ b _ => [b] | _ => [] end.
Definition show_flags (es : list event) : list bool := flat_map show_flag es.

(** The calls into [particle_driver], in order. *)
Definition is_driver_call (ev : event) : bool :=
  match ev with
  | EvDeallocate | EvInit _ _ _ _ | EvGetSizes _ | EvGetPositions _
  | EvCollisionCheck | EvBoundaryCheck | EvUpdate => true
  | _ => false
  end.
Definition driver_calls (es : list event) : list event :=
  List.filter is_driver_call es.

(** A 2D position as the 3D buffer holds it. *)
Definition lift3 (p : vec2) : vec3 := (p.1, p.2, 0%float).

(** What the driver writes into a buffer of [n] positions, of [n] sizes. *)
Definition positions_of {E} `{!ParticleDriver E} (e : E) (n : nat) : list vec2 :=
  map (drv_position e) (seq 0 n).
Definition sizes_of {E} `{!ParticleDriver E} (e : E) (n : nat) : list double :=
  map (drv_size e) (seq 0 n).

(** The driver after the three calls of one iteration of [run]. *)
Definition drv_frame {E} `{!ParticleDriver E} (e : E) : E :=
  drv_update (drv_boundary_check (drv_collision_check e)).

(** The sphere a [Particle] built with the defaults registers. *)
Definition sphere_of (xyz : vec3) (radius : double) : sphere :=
  mkSphere xyz radius "gray" Particle.default_res None.

(** ** Lists *)

Lemma imap_const_seq {A B} (f : nat -> B) (l : list A) :
  imap (fun i _ => f i) l = map f (seq 0 (length l)).
Proof.
  revert f. induction l as [|a l IH]; intros f; [reflexivity|].
  simpl. f_equal. rewrite <- seq_shift, map_map. exact (IH (f ∘ S)).
Qed.

Lemma insert_snoc {A} (l : list A) (x y : A) :
  <[length l := y]> (l ++ [x]) = l ++ [y].
Proof. induction l as [|a l IH]; simpl; [reflexivity|]. by rewrite IH. Qed.

Lemma lookup_snoc {A} (l : list A) (x : A) : (l ++ [x]) !! length l = Some x.
Proof. induction l as [|a l IH]; simpl; [reflexivity|]. exact IH. Qed.

Lemma insert_insert_same {A} (l : list A) (i : nat) (x y : A) :
  <[i := y]> (<[i := x]> l) = <[i := y]> l.
Proof.
  revert i. induction l as [|a l IH]; intros [|i]; simpl; try reflexivity.
  by rewrite IH.
Qed.

Lemma insert_as_alter {A} (f : A -> A) (l : list A) (i : nat) (x : A) :
  l !! i = Some x -> <[i := f x]> l = alter f i l.
Proof.
  revert i. induction l as [|a l IH]; intros [|i]; simpl; try discriminate.
  - by intros [= ->].
  - intros Hi. by rewrite (IH i Hi).
Qed.

Lemma broadcast_xy_same (dst : list vec3) (src : list vec2) :
  length src = length dst ->
  broadcast_xy dst src = Some (zip_with (fun d s => (s.1, s.2, d.2)) dst src).
Proof. intros Hlen. unfold broadcast_xy. by rewrite decide_True. Qed.

Lemma zip_with_zeros (src : list vec2) (n : nat) :
  length src = n ->
  map (fun d : vec3 => (d.1, 0%float))
      (zip_with (fun (d : vec3) (s : vec2) => (s.1, s.2, d.2))
                (repeat (0%float, 0%float, 0%float) n) src)
  = map lift3 src.
Proof.
  intros <-. induction src as [|s src IH]; simpl; [reflexivity|]. by rewrite IH.
Qed.

Lemma zip_with_lift3 (src old : list vec2) :
  length src = length old ->
  zip_with (fun (d : vec3) (s : vec2) => (s.1, s.2, d.2)) (map lift3 old) src
  = map lift3 src.
Proof.
  revert old. induction src as [|s src IH]; intros [|o old] Hlen;
    simpl in *; try discriminate; [reflexivity|].
  f_equal. apply IH. lia.
Qed.

(** ** What the calls do, written out *)

(** The worlds, objects and traces that the lemmas below show the calls to
    produce, and the relations between an object and its world that the
    claims are about. *)

Section Descriptions.
Context {E : Type} `{!ParticleDriver E}.
Implicit Types (w : world E).

(** The world after [Particle(plt, pos, radius, color, res, trail)]. *)
Definition after_Particle (l : loc) (P : plotter) (xyz : vec3) (radius : double)
    (res : Z) (trail : bool) w : world E :=
  let s := length (spheres w) in
  mkWorld (arr_xy w) (arr_xyz w) (arr_1d w)
    (spheres w ++ [mkSphere xyz radius "gray" res
                     (if trail then Some (mkTrail 1 1 50 "g") else None)])
    (<[l := mkPlotter (pl_actors P ++ [s]) (pl_frames P) (pl_escaped P)]> (plotters w))
    (driver w)
    (events w ++ EvSphere s :: (if trail then [EvAddTrail s] else []) ++ [EvAdd l s]).

(** The particles that [Particles.__init__] builds from the rows [rest]
    (row [i] onwards) and the sizes [szs]: one per pair, as long as both
    last; the first one gets the sphere [s]. *)
Fixpoint built (l a : loc) (i s : nat) (rest : list vec3) (szs : list double)
    : list Particle.t :=
  match rest, szs with
  | _ :: rest, sz :: szs =>
      Particle.mk (View a i) (Some l) sz "gray" Particle.default_res false s
      :: built l a (S i) (S s) rest szs
  | _, _ => []
  end.

(** The world after the loop of [Particles.__init__]. *)
Definition after_init_loop (l : loc) (P : plotter) (rest : list vec3)
    (szs : list double) w : world E :=
  let s := length (spheres w) in
  let k := length (zip_with sphere_of rest szs) in
  mkWorld (arr_xy w) (arr_xyz w) (arr_1d w)
    (spheres w ++ zip_with sphere_of rest szs)
    (<[l := mkPlotter (pl_actors P ++ seq s k) (pl_frames P) (pl_escaped P)]> (plotters w))
    (driver w)
    (events w ++ flat_map (fun s => [EvSphere s; EvAdd l s]) (seq s k)).

(** [s.pos(xyz)] on the store of spheres. *)
Definition move_sphere (xyz : vec3) (s : sphere) : sphere :=
  mkSphere xyz (s_r s) (s_c s) (s_res s) (s_trail s).

(** The spheres after [Particles.update] has moved those of [ps] to the
    rows [rest], and the calls it made. *)
Fixpoint moved (rest : list vec3) (ps : list Particle.t) (sphs : list sphere)
    {struct ps} : list sphere :=
  match ps, rest with
  | p :: ps, xyz :: rest =>
      moved rest ps (alter (move_sphere xyz) (Particle.vsphere p) sphs)
  | _, _ => sphs
  end.

Definition moves (rest : list vec3) (ps : list Particle.t) : list event :=
  zip_with EvSpherePos (map Particle.vsphere ps) rest.

(** The particles after [Particles.update]: particle [j] shows row [i + j]. *)
Fixpoint placed (a : loc) (i : nat) (ps : list Particle.t) : list Particle.t :=
  match ps with
  | [] => []
  | p :: ps =>
      Particle.mk (View a i) (Particle.__plt p) (Particle.__r p)
                  (Particle.__color p) (Particle.__res p) (Particle.use_trail p)
                  (Particle.vsphere p)
      :: placed a (S i) ps
  end.

(** The driver, the arrays and the calls after [__init_system] has filled
    its buffers. *)
Definition drv_reinit (self : ParticleSimulation.t) (e : E) : E :=
  drv_init_system (ParticleSimulation.__n_particles self)
    (ParticleSimulation.__r_min self) (ParticleSimulation.__r_max self)
    (ParticleSimulation.__v_max self)
    (if ParticleSimulation.__initialised self then drv_deallocate_system e else e).

Definition init_calls (self : ParticleSimulation.t) (positions sizes : loc)
    : list event :=
  (if ParticleSimulation.__initialised self then [EvDeallocate] else [])
  ++ [EvPrint "Initialise system...";
      EvInit (ParticleSimulation.__n_particles self)
        (ParticleSimulation.__r_min self) (ParticleSimulation.__r_max self)
        (ParticleSimulation.__v_max self);
      EvGetSizes sizes; EvGetPositions positions].

Definition after_init_buffers (self : ParticleSimulation.t) w : world E :=
  let k := Z.to_nat (ParticleSimulation.__n_particles self) in
  let e := drv_reinit self (driver w) in
  mkWorld (arr_xy w ++ [positions_of e k])
          (arr_xyz w ++ [map lift3 (positions_of e k)])
          (arr_1d w ++ [sizes_of e k])
          (spheres w) (plotters w) e
          (events w ++ init_calls self (length (arr_xy w)) (length (arr_1d w))).

(** The object and the world after [__init_system]. *)
Definition built_collection (self : ParticleSimulation.t) (l : loc) w : Particles.t :=
  let k := Z.to_nat (ParticleSimulation.__n_particles self) in
  let e := drv_reinit self (driver w) in
  Particles.mk (length (arr_xyz w)) (length (arr_1d w)) (Some l)
    (built l (length (arr_xyz w)) 0 (length (spheres w))
           (map lift3 (positions_of e k)) (sizes_of e k)).

Definition after_init_system (self : ParticleSimulation.t) (l : loc) (P : plotter) w
    : world E :=
  let k := Z.to_nat (ParticleSimulation.__n_particles self) in
  let e := drv_reinit self (driver w) in
  after_init_loop l P (map lift3 (positions_of e k)) (sizes_of e k)
    (after_init_buffers self w).

Definition initialised_object (self : ParticleSimulation.t)
    (particles : Particles.t) w : ParticleSimulation.t :=
  ParticleSimulation.mk
    (ParticleSimulation.__n_particles self) (ParticleSimulation.__r_min self)
    (ParticleSimulation.__r_max self) (ParticleSimulation.__v_max self)
    (ParticleSimulation.__plt self) true (Some particles)
    (Some (length (arr_xy w))) (Some (length (arr_xyz w))) (Some (length (arr_1d w))).

(** The 3D buffer [positions_3d] mirrors the 2D buffer [positions]: it has
    the same rows, its first two columns are those of [positions] and its
    third column is zero. *)
Definition mirrors (positions positions_3d : loc) w : Prop :=
  exists rows2 rows3,
    arr_xy w !! positions = Some rows2 /\
    arr_xyz w !! positions_3d = Some rows3 /\
    length rows3 = length rows2 /\
    forall i (p : vec2) (q : vec3),
      rows2 !! i = Some p -> rows3 !! i = Some q ->
      q.1 = p /\ q.2 = 0%float.

Definition synced (self : ParticleSimulation.t) w : Prop :=
  exists positions positions_3d,
    ParticleSimulation.__positions self = Some positions /\
    ParticleSimulation.__positions_3d self = Some positions_3d /\
    mirrors positions positions_3d w.

(** The object and the world fit together: the buffers are in sync, the
    collection reads the 3D buffer and has no more particles than it has
    rows, and every particle has its sphere. *)
Definition consistent_at (self : ParticleSimulation.t) w
    (positions positions_3d : loc) (ps : Particles.t) (rows2 : list vec2) : Prop :=
  ParticleSimulation.__positions self = Some positions /\
  ParticleSimulation.__positions_3d self = Some positions_3d /\
  ParticleSimulation.__particles self = Some ps /\
  Particles.__positions ps = positions_3d /\
  arr_xy w !! positions = Some rows2 /\
  arr_xyz w !! positions_3d = Some (map lift3 rows2) /\
  length (Particles.__particles ps) <= length rows2 /\
  Forall (fun p => Particle.vsphere p < length (spheres w)) (Particles.__particles ps).

Definition consistent (self : ParticleSimulation.t) w : Prop :=
  exists positions positions_3d ps rows2,
    consistent_at self w positions positions_3d ps rows2.

Definition step_calls (positions : loc) : list event :=
  [EvCollisionCheck; EvBoundaryCheck; EvUpdate; EvGetPositions positions].

Definition after_run_step (positions : loc) (n : nat) w : world E :=
  mkWorld (<[positions := positions_of (drv_frame (driver w)) n]> (arr_xy w))
          (arr_xyz w) (arr_1d w) (spheres w) (plotters w)
          (drv_frame (driver w)) (events w ++ step_calls positions).

Definition after_run_sync (positions_3d : loc) (rows2 : list vec2) w : world E :=
  mkWorld (arr_xy w) (<[positions_3d := map lift3 rows2]> (arr_xyz w)) (arr_1d w)
          (spheres w) (plotters w) (driver w) (events w).

(** The world when [run] has brought the buffers and the spheres up to
    date, before it shows the frame. *)
Definition after_run_update (positions positions_3d : loc) (ps : Particles.t)
    (n : nat) w : world E :=
  let e := drv_frame (driver w) in
  let rows3 := map lift3 (positions_of e n) in
  mkWorld (<[positions := positions_of e n]> (arr_xy w))
          (<[positions_3d := rows3]> (arr_xyz w)) (arr_1d w)
          (moved rows3 (Particles.__particles ps) (spheres w))
          (plotters w) e
          (events w ++ step_calls positions
                    ++ moves rows3 (Particles.__particles ps)).

Definition placed_collection (ps : Particles.t) : Particles.t :=
  Particles.mk (Particles.__positions ps) (Particles.__sizes ps) (Particles.__plt ps)
    (placed (Particles.__positions ps) 0 (Particles.__particles ps)).

Definition with_particles (self : ParticleSimulation.t) (ps : Particles.t)
    : ParticleSimulation.t :=
  ParticleSimulation.mk
    (ParticleSimulation.__n_particles self) (ParticleSimulation.__r_min self)
    (ParticleSimulation.__r_max self) (ParticleSimulation.__v_max self)
    (ParticleSimulation.__plt self) (ParticleSimulation.__initialised self)
    (Some ps)
    (ParticleSimulation.__positions self) (ParticleSimulation.__positions_3d self)
    (ParticleSimulation.__sizes self).

(** The calls of one iteration, and the world after it. *)
Definition frame_calls (positions plt : loc) (ps : Particles.t) (e : E) (n : nat)
    (reset_cam : bool) : list event :=
  step_calls positions
  ++ moves (map lift3 (positions_of (drv_frame e) n)) (Particles.__particles ps)
  ++ [EvShow plt reset_cam 1%Z].

Definition shown (P : plotter) : plotter :=
  mkPlotter (pl_actors P) (S (pl_frames P)) (pl_escaped P).

Definition after_frame (positions positions_3d : loc) (ps : Particles.t) (n : nat)
    (l : loc) (P : plotter) (reset_cam : bool) w : world E :=
  let e := drv_frame (driver w) in
  let rows3 := map lift3 (positions_of e n) in
  mkWorld (<[positions := positions_of e n]> (arr_xy w))
          (<[positions_3d := rows3]> (arr_xyz w)) (arr_1d w)
          (moved rows3 (Particles.__particles ps) (spheres w))
          (<[l := shown P]> (plotters w)) e
          (events w ++ frame_calls positions l ps (driver w) n reset_cam).

(** An object and the world it lives in, after the constructor and any
    number of calls of its setters, of [__del__], of [print], and of
    iterations of the loop of [run]. *)
Inductive reachable : ParticleSimulation.t -> world E -> Prop :=
| reach_new plt n r_min r_max v_max w self w' :
    ParticleSimulation.__init__ plt n r_min r_max v_max w = Ret self w' ->
    reachable self w'
| reach_set_n_particles n self w self' w' :
    reachable self w ->
    ParticleSimulation.set_n_particles n self w = Ret self' w' ->
    reachable self' w'
| reach_set_r_min v self w self' w' :
    reachable self w ->
    ParticleSimulation.set_r_min v self w = Ret self' w' ->
    reachable self' w'
| reach_set_r_max v self w self' w' :
    reachable self w ->
    ParticleSimulation.set_r_max v self w = Ret self' w' ->
    reachable self' w'
| reach_set_v_max v self w self' w' :
    reachable self w ->
    ParticleSimulation.set_v_max v self w = Ret self' w' ->
    reachable self' w'
| reach_set_plt p self w self' w' :
    reachable self w ->
    ParticleSimulation.set_plt p self w = Ret self' w' ->
    reachable self' w'
| reach_set_initialised flag self w self' w' :
    reachable self w ->
    ParticleSimulation.set_initialised flag self w = Ret self' w' ->
    reachable self' w'
| reach_frame reset_cam self w self' reset_cam' escaped w' :
    reachable self w ->
    ParticleSimulation.run_body self reset_cam w = Ret (self', reset_cam', escaped) w' ->
    reachable self' w'
| reach_print msg self w w' :
    reachable self w ->
    print msg w = Ret tt w' ->
    reachable self w'
| reach_del self w w' :
    reachable self w ->
    ParticleSimulation.__del__ self w = Ret tt w' ->
    reachable self w'.

(** The calls of [k] iterations in a row; only the first may reset the
    camera. *)
Fixpoint run_calls (positions l : loc) (ps : Particles.t) (n k : nat) (e : E)
    (reset_cam : bool) : list event :=
  match k with
  | O => []
  | S k => frame_calls positions l ps e n reset_cam
           ++ run_calls positions l ps n k (drv_frame e) false
  end.

(** What [getattr(plt, "escaped", False)] answers after [j] more frames. *)
Definition escaped_after (P : plotter) (j : nat) : bool :=
  default false (pl_escaped P (pl_frames P + j)).

Definition shows w : list bool := show_flags (events w).

(** A computation that never calls [show], however it ends. *)
Definition silent {A} (m : M E A) : Prop :=
  forall w, shows (world_of (m w)) = shows w.

(** Where [run] stands when it has ended or used up its fuel. *)
Definition result_world (r : ParticleSimulation.run_result) : world E :=
  match r with
  | ParticleSimulation.Exited _ w => w
  | ParticleSimulation.Raised _ w => w
  | ParticleSimulation.Running _ _ w => w
  end.

(** The flags of [K] frames in a row, the first of which is [first]. *)
Definition camera_flags (first : bool) (K : nat) : list bool :=
  match K with
  | O => []
  | S m => first :: repeat false m
  end.

(** What a setter that reinitialises does, on an initialised object with a
    plotter: it returns, the collection has [n] particles, and of the calls
    it makes to the driver the first is [deallocate_system] and the second
    [init_system] with the parameters as they now are. *)
Definition reinitialised (o : outcome E ParticleSimulation.t) w
    (n : Z) (r_min r_max v_max : double) : Prop :=
  exists self' w' ps new,
    o = Ret self' w' /\
    ParticleSimulation.__particles self' = Some ps /\
    Z.of_nat (length (Particles.__particles ps)) = n /\
    events w' = events w ++ new /\
    driver_calls new
    = [EvDeallocate; EvInit n r_min r_max v_max;
       EvGetSizes (length (arr_1d w)); EvGetPositions (length (arr_xy w))].

(** The array [a] of shape [n,3] overwritten in place with [rows]. *)
Definition overwrite (a : loc) (rows : list vec3) w : world E :=
  set_arr_xyz (fun h => <[a := rows]> h) w.

(** No two particles of the collection share a sphere. *)
Definition distinct_spheres (self : ParticleSimulation.t) : Prop :=
  forall ps, ParticleSimulation.__particles self = Some ps ->
    NoDup (map Particle.vsphere (Particles.__particles ps)).

End Descriptions.

(** ** What each call does to the world *)

Ltac unfold_monad :=
  unfold bind, ret, raise, load, emit, print in *.

Section Specs.
Context {E : Type} `{!ParticleDriver E}.
Implicit Types (w : world E).

(* All computations below run in worlds of the one driver [E]. *)
Local Abbreviation silent := (@silent E _) (only parsing).

Lemma read_ok (v : view) w rows xyz :
  arr_xyz w !! v_base v = Some rows -> rows !! v_row v = Some xyz ->
  np.read v w = Ret xyz w.
Proof. intros Ha Hr. unfold np.read. unfold_monad. by rewrite Ha, Hr. Qed.

Lemma read_inv (v : view) w xyz w' :
  np.read v w = Ret xyz w' ->
  w' = w /\ exists rows, arr_xyz w !! v_base v = Some rows /\ rows !! v_row v = Some xyz.
Proof.
  unfold np.read. unfold_monad.
  destruct (arr_xyz w !! v_base v) as [rows|] eqn:Ha; [|discriminate].
  destruct (rows !! v_row v) as [q|] eqn:Hr; [|discriminate].
  intros [= <- <-]. eauto.
Qed.

Lemma Particle_init_ok l P pos rows xyz radius color res trail w :
  plotters w !! l = Some P ->
  arr_xyz w !! v_base pos = Some rows -> rows !! v_row pos = Some xyz ->
  Particle.__init__ (Some l) pos radius color res trail w
  = Ret (Particle.mk pos (Some l) radius "gray" res trail (length (spheres w)))
        (after_Particle l P xyz radius res trail w).
Proof.
  intros HP Ha Hr. unfold Particle.__init__, after_Particle.
  unfold bind at 1. rewrite (read_ok _ _ _ _ Ha Hr).
  unfold vedo.Sphere, vedo.addTrail, vedo.add. unfold_monad.
  destruct trail; simpl.
  - rewrite lookup_snoc. simpl. rewrite HP. simpl.
    rewrite insert_snoc. by rewrite <- !app_assoc.
  - rewrite HP. simpl. by rewrite <- !app_assoc.
Qed.

Lemma Particle_init_inv plt pos radius color res trail w p w' :
  Particle.__init__ plt pos radius color res trail w = Ret p w' ->
  exists l P rows xyz,
    plt = Some l /\ plotters w !! l = Some P /\
    arr_xyz w !! v_base pos = Some rows /\ rows !! v_row pos = Some xyz.
Proof.
  unfold Particle.__init__. unfold bind at 1.
  destruct (np.read pos w) as [xyz w1|] eqn:Hread; [|discriminate].
  apply read_inv in Hread as [-> (rows & Ha & Hr)].
  destruct plt as [l|].
  - destruct (plotters w !! l) as [P|] eqn:HP; [eauto 10|].
    unfold vedo.Sphere, vedo.addTrail, vedo.add. unfold_monad.
    destruct trail; simpl; [rewrite lookup_snoc; simpl|]; rewrite HP; discriminate.
  - unfold vedo.Sphere, vedo.addTrail, vedo.add. unfold_monad.
    destruct trail; simpl; [rewrite lookup_snoc; simpl|]; discriminate.
Qed.

Lemma length_built l a i s rest szs :
  length (built l a i s rest szs) = Nat.min (length rest) (length szs).
Proof.
  revert i s szs. induction rest as [|r rest IH]; intros i s [|sz szs];
    simpl; try reflexivity. by rewrite IH.
Qed.

Lemma lookup_built l a i s rest szs j p :
  built l a i s rest szs !! j = Some p ->
  Particle.__pos p = View a (i + j) /\ Particle.vsphere p = (s + j)%nat /\
  Particle.__plt p = Some l /\ Particle.__color p = "gray" /\
  szs !! j = Some (Particle.__r p) /\ is_Some (rest !! j).
Proof.
  revert i s szs j. induction rest as [|r rest IH]; intros i s [|sz szs] j;
    simpl; try discriminate.
  destruct j as [|j]; simpl.
  - intros [= <-]. simpl. rewrite !Nat.add_0_r. eauto 10.
  - intros Hj. apply IH in Hj. rewrite !Nat.add_succ_r. exact Hj.
Qed.

Lemma length_zip_spheres (rest : list vec3) (szs : list double) :
  length (zip_with sphere_of rest szs) = Nat.min (length rest) (length szs).
Proof.
  revert szs. induction rest as [|r rest IH]; intros [|sz szs];
    simpl; try reflexivity. by rewrite IH.
Qed.

Lemma world_eta w :
  mkWorld (arr_xy w) (arr_xyz w) (arr_1d w) (spheres w) (plotters w)
          (driver w) (events w) = w.
Proof. by destruct w. Qed.

Lemma after_init_loop_nil_l l P szs w :
  plotters w !! l = Some P -> after_init_loop l P [] szs w = w.
Proof.
  intros HP. unfold after_init_loop. simpl. rewrite !app_nil_r.
  replace (mkPlotter (pl_actors P) (pl_frames P) (pl_escaped P)) with P
    by (by destruct P).
  rewrite list_insert_id by exact HP. apply world_eta.
Qed.

Lemma after_init_loop_nil_r l P rest w :
  plotters w !! l = Some P -> after_init_loop l P rest [] w = w.
Proof.
  intros HP. unfold after_init_loop.
  replace (zip_with sphere_of rest []) with (@nil sphere) by (by destruct rest).
  simpl. rewrite !app_nil_r.
  replace (mkPlotter (pl_actors P) (pl_frames P) (pl_escaped P)) with P
    by (by destruct P).
  rewrite list_insert_id by exact HP. apply world_eta.
Qed.

Lemma init_loop_ok l a rows : forall rest i szs acc w P,
  drop i rows = rest ->
  arr_xyz w !! a = Some rows -> plotters w !! l = Some P ->
  Particles.init_loop (Some l) (zip (map (View a) (seq i (length rest))) szs) acc w
  = Ret (acc ++ built l a i (length (spheres w)) rest szs)
        (after_init_loop l P rest szs w).
Proof.
  induction rest as [|r rest IH]; intros i szs acc w P Hdrop Ha HP.
  - simpl. unfold ret. by rewrite app_nil_r, after_init_loop_nil_l.
  - destruct szs as [|sz szs].
    + simpl. unfold ret. by rewrite app_nil_r, after_init_loop_nil_r.
    + assert (Hr : rows !! i = Some r).
      { rewrite <- (Nat.add_0_r i), <- lookup_drop, Hdrop. reflexivity. }
      assert (Hdrop' : drop (S i) rows = rest).
      { apply (drop_S _ _ _) in Hr. rewrite Hdrop in Hr. by injection Hr. }
      cbn [length seq map zip zip_with Particles.init_loop].
      unfold bind at 1.
      rewrite (Particle_init_ok l P (View a i) rows r) by done.
      set (w1 := after_Particle l P r sz Particle.default_res
                   Particle.default_use_trail w).
      assert (HP1 : plotters w1 !! l
                    = Some (mkPlotter (pl_actors P ++ [length (spheres w)])
                                      (pl_frames P) (pl_escaped P))).
      { unfold w1, after_Particle. simpl. apply list_lookup_insert_eq.
        by apply lookup_lt_Some in HP. }
      rewrite (IH (S i) szs _ w1 _ Hdrop' Ha HP1).
      f_equal.
      * rewrite <- app_assoc. simpl. do 2 f_equal.
        unfold w1, after_Particle. simpl. rewrite length_app. simpl.
        by rewrite Nat.add_1_r.
      * unfold after_init_loop, w1, after_Particle. simpl.
        rewrite !length_app. simpl. rewrite !Nat.add_1_r.
        rewrite insert_insert_same. rewrite <- !app_assoc. simpl.
        reflexivity.
Qed.

Lemma Particles_init_ok l P a s rows szs w :
  plotters w !! l = Some P ->
  arr_xyz w !! a = Some rows -> arr_1d w !! s = Some szs ->
  Particles.__init__ (Some l) a s w
  = Ret (Particles.mk a s (Some l) (built l a 0 (length (spheres w)) rows szs))
        (after_init_loop l P rows szs w).
Proof.
  intros HP Ha Hs. unfold Particles.__init__, Particles.rows_of. unfold_monad.
  rewrite Ha, Hs.
  by rewrite (init_loop_ok l a rows rows 0 szs [] w P).
Qed.

(** A collection that was built was built from two arrays, and it has one
    particle per pair of a row and a size. *)
Lemma Particles_init_inv plt a s w ps w' :
  Particles.__init__ plt a s w = Ret ps w' ->
  exists rows szs,
    arr_xyz w !! a = Some rows /\ arr_1d w !! s = Some szs /\
    arr_xyz w' = arr_xyz w /\
    length (spheres w) <= length (spheres w') /\
    Particles.__positions ps = a /\
    length (Particles.__particles ps) = Nat.min (length rows) (length szs) /\
    forall j p, Particles.__particles ps !! j = Some p ->
      Particle.__pos p = View a j /\ szs !! j = Some (Particle.__r p) /\
      Particle.vsphere p < length (spheres w').
Proof.
  intros Hinit.
  assert (exists rows szs, arr_xyz w !! a = Some rows /\ arr_1d w !! s = Some szs)
    as (rows & szs & Ha & Hs).
  { unfold Particles.__init__ in Hinit. unfold_monad.
    destruct (arr_xyz w !! a); [|discriminate].
    destruct (arr_1d w !! s); [|discriminate]. eauto. }
  exists rows, szs. split; [done|]. split; [done|].
  destruct (zip (Particles.rows_of a (length rows)) szs) as [|[v sz] items] eqn:Hzip.
  - (* no pair: the loop body never runs *)
    unfold Particles.__init__ in Hinit. unfold_monad.
    rewrite Ha, Hs, Hzip in Hinit. simpl in Hinit. injection Hinit as <- <-.
    simpl. split; [done|]. split; [done|]. split; [done|]. split.
    + unfold Particles.rows_of in Hzip.
      destruct rows; [done|]. destruct szs; [by rewrite Nat.min_0_r|].
      discriminate.
    + intros j p Hj. by rewrite lookup_nil in Hj.
  - (* at least one pair: the first [Particle] needs a plotter *)
    assert (exists l P, plt = Some l /\ plotters w !! l = Some P) as (l & P & -> & HP).
    { unfold Particles.__init__ in Hinit. unfold_monad.
      rewrite Ha, Hs, Hzip in Hinit. simpl in Hinit. unfold bind at 1 in Hinit.
      destruct (Particle.__init__ plt v sz _ _ _ w) as [p w1|] eqn:Hp; [|discriminate].
      apply Particle_init_inv in Hp as (l & P & _ & _ & -> & HP & _). eauto. }
    rewrite (Particles_init_ok l P a s rows szs w HP Ha Hs) in Hinit.
    injection Hinit as <- <-. simpl.
    split; [done|]. split; [rewrite length_app; lia|]. split; [done|].
    split; [apply length_built|].
    intros j p Hj. pose proof (lookup_lt_Some _ _ _ Hj) as Hlt.
    rewrite length_built in Hlt.
    apply lookup_built in Hj as (Hpos & Hv & _ & _ & Hr & _).
    simpl in Hpos. split; [done|]. split; [done|].
    rewrite Hv, length_app, length_zip_spheres. lia.
Qed.

Lemma sphere_pos_ok (s : loc) (xyz : vec3) (sph : sphere) w :
  spheres w !! s = Some sph ->
  vedo.pos s xyz w
  = Ret tt (mkWorld (arr_xy w) (arr_xyz w) (arr_1d w)
              (<[s := move_sphere xyz sph]> (spheres w)) (plotters w) (driver w)
              (events w ++ [EvSpherePos s xyz])).
Proof. intros Hs. unfold vedo.pos. unfold_monad. simpl. by rewrite Hs. Qed.

Lemma length_moved rest ps sphs : length (moved rest ps sphs) = length sphs.
Proof.
  revert rest sphs. induction ps as [|p ps IH]; intros [|xyz rest] sphs;
    simpl; try reflexivity.
  by rewrite IH, length_alter.
Qed.

Lemma length_placed a i ps : length (placed a i ps) = length ps.
Proof. revert i. induction ps as [|p ps IH]; intros i; simpl; [done|]. by rewrite IH. Qed.

Lemma vsphere_placed a i ps :
  map Particle.vsphere (placed a i ps) = map Particle.vsphere ps.
Proof. revert i. induction ps as [|p ps IH]; intros i; simpl; [done|]. by rewrite IH. Qed.

Lemma lookup_placed a i ps j p :
  placed a i ps !! j = Some p ->
  Particle.__pos p = View a (i + j) /\
  exists q, ps !! j = Some q /\ Particle.vsphere p = Particle.vsphere q.
Proof.
  revert i j. induction ps as [|q ps IH]; intros i j; simpl; [done|].
  destruct j as [|j]; simpl.
  - intros [= <-]. simpl. rewrite Nat.add_0_r. eauto.
  - intros Hj. apply IH in Hj. by rewrite Nat.add_succ_r.
Qed.

Lemma update_loop_ok a rows : forall ps i rest w,
  arr_xyz w !! a = Some rows -> drop i rows = rest ->
  length ps <= length rest ->
  Forall (fun p => Particle.vsphere p < length (spheres w)) ps ->
  Particles.update_loop a i ps w
  = Ret (placed a i ps)
        (mkWorld (arr_xy w) (arr_xyz w) (arr_1d w) (moved rest ps (spheres w))
                 (plotters w) (driver w) (events w ++ moves rest ps)).
Proof.
  induction ps as [|p ps IH]; intros i rest w Ha Hdrop Hlen Hsph.
  - simpl. unfold ret. by rewrite app_nil_r, world_eta.
  - destruct rest as [|xyz rest]; [simpl in Hlen; lia|].
    assert (Hr : rows !! i = Some xyz).
    { rewrite <- (Nat.add_0_r i), <- lookup_drop, Hdrop. reflexivity. }
    assert (Hdrop' : drop (S i) rows = rest).
    { apply (drop_S _ _ _) in Hr. rewrite Hdrop in Hr. by injection Hr. }
    apply Forall_cons in Hsph as [Hp Hps].
    destruct (lookup_lt_is_Some_2 _ _ Hp) as [sph Hsp].
    cbn [Particles.update_loop]. unfold bind at 1. unfold np.getitem.
    unfold bind at 1. unfold load at 1. rewrite Ha.
    rewrite decide_True by (by apply lookup_lt_Some in Hr).
    unfold ret at 1. unfold bind at 1. unfold Particle.set_pos.
    unfold bind at 1. cbn [Particle.__pos Particle.vsphere].
    rewrite (read_ok (View a i) w rows xyz Ha Hr).
    unfold bind at 1. rewrite (sphere_pos_ok _ _ sph w Hsp).
    unfold ret at 1. unfold bind at 1.
    rewrite (IH (S i) rest); [| done | done | simpl in *; lia | ].
    + unfold ret. cbn. do 2 f_equal.
      * by rewrite (insert_as_alter _ _ _ _ Hsp).
      * by rewrite <- app_assoc.
    + simpl. rewrite length_insert. exact Hps.
Qed.

Lemma Particles_update_ok (ps : Particles.t) rows w :
  arr_xyz w !! Particles.__positions ps = Some rows ->
  length (Particles.__particles ps) <= length rows ->
  Forall (fun p => Particle.vsphere p < length (spheres w)) (Particles.__particles ps) ->
  Particles.update ps w
  = Ret (Particles.mk (Particles.__positions ps) (Particles.__sizes ps)
           (Particles.__plt ps)
           (placed (Particles.__positions ps) 0 (Particles.__particles ps)))
        (mkWorld (arr_xy w) (arr_xyz w) (arr_1d w)
           (moved rows (Particles.__particles ps) (spheres w))
           (plotters w) (driver w)
           (events w ++ moves rows (Particles.__particles ps))).
Proof.
  intros Ha Hlen Hsph. unfold Particles.update. unfold bind.
  by rewrite (update_loop_ok _ rows _ 0 rows w Ha).
Qed.

Lemma init_buffers_ok (self : ParticleSimulation.t) w :
  (0 <= ParticleSimulation.__n_particles self)%Z ->
  ParticleSimulation.init_buffers self w
  = Ret (length (arr_xy w), length (arr_xyz w), length (arr_1d w))
        (after_init_buffers self w).
Proof.
  intros Hn. unfold ParticleSimulation.init_buffers, after_init_buffers,
    init_calls, drv_reinit.
  unfold ParticleSimulation.initialised, ParticleSimulation.n_particles.
  unfold np.zeros_xy, np.zeros_xyz, np.zeros_1d, np.assign_xy, np.assign_z,
    particle_driver.get_sizes, particle_driver.get_positions,
    particle_driver.init_system, particle_driver.deallocate_system,
    particle_driver.call.
  unfold_monad.
  assert (Hneg : (ParticleSimulation.__n_particles self <? 0)%Z = false)
    by (apply Z.ltb_ge; lia).
  destruct (ParticleSimulation.__initialised self); simpl; rewrite !Hneg; simpl.
  all: repeat (first [ rewrite lookup_snoc | rewrite insert_snoc
                     | rewrite broadcast_xy_same
                         by (by rewrite length_imap, !repeat_length) ]; simpl).
  all: rewrite !imap_const_seq, !repeat_length.
  all: rewrite zip_with_zeros by (by rewrite length_map, length_seq).
  all: unfold set_arr_xy, set_arr_xyz, set_arr_1d, set_driver; simpl.
  all: rewrite ?insert_snoc, ?insert_insert_same, ?insert_snoc.
  all: unfold positions_of, sizes_of.
  all: by rewrite <- !app_assoc.
Qed.

Lemma init_buffers_inv (self : ParticleSimulation.t) w bufs w' :
  ParticleSimulation.init_buffers self w = Ret bufs w' ->
  (0 <= ParticleSimulation.__n_particles self)%Z.
Proof.
  intros Hinit. destruct (Z.ltb_spec (ParticleSimulation.__n_particles self) 0)
    as [Hneg|Hpos]; [exfalso|done].
  apply Z.ltb_lt in Hneg. revert Hinit.
  unfold ParticleSimulation.init_buffers, ParticleSimulation.n_particles,
    particle_driver.deallocate_system, particle_driver.call, np.zeros_xy.
  unfold_monad.
  destruct (ParticleSimulation.initialised self); simpl; by rewrite Hneg.
Qed.

Lemma init_system_ok (self : ParticleSimulation.t) l P w :
  (0 <= ParticleSimulation.__n_particles self)%Z ->
  ParticleSimulation.__plt self = Some l -> plotters w !! l = Some P ->
  ParticleSimulation.__init_system self w
  = Ret (initialised_object self (built_collection self l w) w)
        (after_init_system self l P w).
Proof.
  intros Hn Hplt HP. unfold ParticleSimulation.__init_system.
  unfold bind at 1. rewrite (init_buffers_ok self w Hn).
  unfold bind at 1. rewrite Hplt.
  erewrite (Particles_init_ok l P).
  - unfold ret. unfold initialised_object, built_collection. by rewrite Hplt.
  - exact HP.
  - unfold after_init_buffers. simpl. apply lookup_snoc.
  - unfold after_init_buffers. simpl. apply lookup_snoc.
Qed.

(** A system that was initialised: its count was not negative, and either
    it has no particle, or it has a plotter. *)
Lemma init_system_inv (self : ParticleSimulation.t) w self' w' :
  ParticleSimulation.__init_system self w = Ret self' w' ->
  (0 <= ParticleSimulation.__n_particles self)%Z /\
  ((ParticleSimulation.__n_particles self = 0%Z /\
    self' = initialised_object self
              (Particles.mk (length (arr_xyz w)) (length (arr_1d w))
                            (ParticleSimulation.__plt self) []) w /\
    w' = after_init_buffers self w)
   \/ exists l P,
        ParticleSimulation.__plt self = Some l /\ plotters w !! l = Some P /\
        self' = initialised_object self (built_collection self l w) w /\
        w' = after_init_system self l P w).
Proof.
  intros Hinit.
  assert (Hn : (0 <= ParticleSimulation.__n_particles self)%Z).
  { unfold ParticleSimulation.__init_system in Hinit. unfold bind at 1 in Hinit.
    destruct (ParticleSimulation.init_buffers self w) as [bufs w1|] eqn:Hb;
      [|discriminate].
    by apply init_buffers_inv in Hb. }
  split; [done|].
  destruct (decide (ParticleSimulation.__n_particles self = 0%Z)) as [H0|H0].
  - left. split; [done|].
    unfold ParticleSimulation.__init_system in Hinit. unfold bind at 1 in Hinit.
    rewrite (init_buffers_ok self w Hn) in Hinit.
    unfold bind at 1 in Hinit. unfold Particles.__init__ in Hinit.
    unfold bind at 1 in Hinit. unfold load at 1 in Hinit.
    unfold after_init_buffers at 1 in Hinit. cbn [arr_xyz] in Hinit.
    rewrite lookup_snoc in Hinit.
    unfold bind at 1 in Hinit. unfold load at 1 in Hinit.
    unfold after_init_buffers at 1 in Hinit. cbn [arr_1d] in Hinit.
    rewrite lookup_snoc in Hinit.
    rewrite H0 in Hinit. simpl in Hinit. unfold ret in Hinit.
    injection Hinit as <- <-. split; [|done].
    unfold initialised_object. by rewrite H0.
  - right.
    assert (exists l P, ParticleSimulation.__plt self = Some l /\ plotters w !! l = Some P)
      as (l & P & Hplt & HP).
    { unfold ParticleSimulation.__init_system in Hinit. unfold bind at 1 in Hinit.
      rewrite (init_buffers_ok self w Hn) in Hinit.
      unfold bind at 1 in Hinit.
      destruct (Particles.__init__ _ _ _ _) as [ps w1|] eqn:Hps; [|discriminate].
      unfold Particles.__init__ in Hps.
      unfold bind at 1 in Hps. unfold load at 1 in Hps.
      unfold after_init_buffers at 1 in Hps. cbn [arr_xyz] in Hps.
      rewrite lookup_snoc in Hps.
      unfold bind at 1 in Hps. unfold load at 1 in Hps.
      unfold after_init_buffers at 1 in Hps. cbn [arr_1d] in Hps.
      rewrite lookup_snoc in Hps.
      unfold positions_of, sizes_of, Particles.rows_of in Hps.
      rewrite !length_map, length_seq in Hps.
      destruct (Z.to_nat (ParticleSimulation.__n_particles self)) as [|k] eqn:Hk;
        [lia|].
      cbn [seq map zip zip_with Particles.init_loop] in Hps.
      unfold bind at 1 2 in Hps.
      destruct (Particle.__init__ _ _ _ _ _ _ _) as [p w2|] eqn:Hp; [|discriminate].
      apply Particle_init_inv in Hp as (l & P & _ & _ & Hplt & HP & _).
      exists l, P. split; [done|]. exact HP. }
    exists l, P. rewrite (init_system_ok self l P w Hn Hplt HP) in Hinit.
    by injection Hinit as <- <-.
Qed.

(** ** The state between two calls on a [ParticleSimulation] *)

Lemma lookup_lift3 (rows2 : list vec2) i (q : vec3) :
  map lift3 rows2 !! i = Some q -> exists p, rows2 !! i = Some p /\ q = lift3 p.
Proof.
  revert i. induction rows2 as [|p rows2 IH]; intros [|i]; simpl; try done.
  - intros [= <-]. eauto.
  - apply IH.
Qed.

Lemma mirrors_lift3 w positions positions_3d rows2 :
  arr_xy w !! positions = Some rows2 ->
  arr_xyz w !! positions_3d = Some (map lift3 rows2) ->
  mirrors positions positions_3d w.
Proof.
  intros Ha2 Ha3. exists rows2, (map lift3 rows2).
  split_and!; try done; try apply length_map.
  intros i p q Hp Hq. apply lookup_lift3 in Hq as (p' & Hp' & ->).
  rewrite Hp in Hp'. injection Hp' as <-. by destruct p.
Qed.

Lemma consistent_synced self w : consistent self w -> synced self w.
Proof.
  intros (l2 & l3 & ps & rows2 & H2 & H3 & _ & _ & Ha2 & Ha3 & _).
  exists l2, l3. split_and!; try done. by eapply mirrors_lift3.
Qed.

Lemma built_spheres l a i s rest szs :
  Forall (fun p => Particle.vsphere p < s + Nat.min (length rest) (length szs))
         (built l a i s rest szs).
Proof.
  apply Forall_lookup. intros j p Hj.
  pose proof (lookup_lt_Some _ _ _ Hj) as Hlt. rewrite length_built in Hlt.
  apply lookup_built in Hj as (_ & -> & _). lia.
Qed.

Lemma init_system_consistent (self : ParticleSimulation.t) w self' w' :
  ParticleSimulation.__init_system self w = Ret self' w' -> consistent self' w'.
Proof.
  intros Hinit. apply init_system_inv in Hinit as [Hn [(H0 & -> & ->)|(l & P & Hplt & HP & -> & ->)]].
  - exists (length (arr_xy w)), (length (arr_xyz w)), (Particles.mk (length (arr_xyz w)) (length (arr_1d w)) (ParticleSimulation.__plt self) []),
      (positions_of (drv_reinit self (driver w)) (Z.to_nat (ParticleSimulation.__n_particles self))).
    unfold consistent_at, initialised_object, after_init_buffers. simpl.
    rewrite !lookup_snoc. split_and!; try done; lia.
  - exists (length (arr_xy w)), (length (arr_xyz w)), (built_collection self l w),
      (positions_of (drv_reinit self (driver w)) (Z.to_nat (ParticleSimulation.__n_particles self))).
    unfold consistent_at, initialised_object, after_init_system, after_init_loop,
      after_init_buffers, built_collection. simpl.
    rewrite !lookup_snoc. split_and!; try done.
    + rewrite length_built, length_map. lia.
    + rewrite length_app, length_zip_spheres. apply built_spheres.
Qed.

(** ** One iteration of [run] *)

Lemma run_step_ok (self : ParticleSimulation.t) w positions rows2 :
  ParticleSimulation.__positions self = Some positions ->
  arr_xy w !! positions = Some rows2 ->
  ParticleSimulation.run_step self w
  = Ret tt (after_run_step positions (length rows2) w).
Proof.
  intros H2 Ha2. unfold ParticleSimulation.run_step, after_run_step, step_calls,
    drv_frame, particle_driver.collision_check, particle_driver.boundary_check,
    particle_driver.update, particle_driver.get_positions, particle_driver.call,
    ParticleSimulation.attr.
  rewrite H2. unfold_monad. simpl. rewrite Ha2. simpl.
  unfold set_arr_xy. simpl. rewrite imap_const_seq.
  by rewrite <- !app_assoc.
Qed.

Lemma run_sync_ok (self : ParticleSimulation.t) w positions positions_3d rows2 old2 :
  ParticleSimulation.__positions self = Some positions ->
  ParticleSimulation.__positions_3d self = Some positions_3d ->
  arr_xy w !! positions = Some rows2 ->
  arr_xyz w !! positions_3d = Some (map lift3 old2) ->
  length rows2 = length old2 ->
  ParticleSimulation.run_sync self w = Ret tt (after_run_sync positions_3d rows2 w).
Proof.
  intros H2 H3 Ha2 Ha3 Hlen. unfold ParticleSimulation.run_sync, after_run_sync,
    np.assign_xy, ParticleSimulation.attr.
  rewrite H2, H3. unfold_monad. rewrite Ha2, Ha3.
  rewrite broadcast_xy_same by (by rewrite length_map).
  by rewrite zip_with_lift3.
Qed.

Lemma positions_of_length (e : E) n : length (positions_of e n) = n.
Proof. unfold positions_of. by rewrite length_map, length_seq. Qed.

(** The three steps before [show], from a consistent state. *)
Lemma run_update_ok (self : ParticleSimulation.t) w positions positions_3d ps rows2 :
  consistent_at self w positions positions_3d ps rows2 ->
  ParticleSimulation.run_step self w
    = Ret tt (after_run_step positions (length rows2) w) /\
  ParticleSimulation.run_sync self (after_run_step positions (length rows2) w)
    = Ret tt (after_run_sync positions_3d
                (positions_of (drv_frame (driver w)) (length rows2))
                (after_run_step positions (length rows2) w)) /\
  Particles.update ps
    (after_run_sync positions_3d
                (positions_of (drv_frame (driver w)) (length rows2))
                (after_run_step positions (length rows2) w))
    = Ret (placed_collection ps)
          (after_run_update positions positions_3d ps (length rows2) w).
Proof.
  intros (H2 & H3 & Hps & Hpos & Ha2 & Ha3 & Hlen & Hsph).
  pose proof (lookup_lt_Some _ _ _ Ha2) as Hl2.
  pose proof (lookup_lt_Some _ _ _ Ha3) as Hl3.
  split; [by apply run_step_ok|]. split.
  - apply (run_sync_ok self _ positions positions_3d _ rows2); try done.
    + unfold after_run_step. simpl. by apply list_lookup_insert_eq.
    + apply positions_of_length.
  - erewrite Particles_update_ok.
    + unfold placed_collection, after_run_update, after_run_sync, after_run_step.
      simpl. by rewrite <- !app_assoc.
    + rewrite Hpos. unfold after_run_sync. simpl. by apply list_lookup_insert_eq.
    + by rewrite length_map, positions_of_length.
    + exact Hsph.
Qed.

Lemma run_body_ok (self : ParticleSimulation.t) w positions positions_3d ps rows2
    l P reset_cam :
  consistent_at self w positions positions_3d ps rows2 ->
  ParticleSimulation.__plt self = Some l -> plotters w !! l = Some P ->
  ParticleSimulation.run_body self reset_cam w
  = Ret (with_particles self (placed_collection ps), false,
         default false (pl_escaped P (S (pl_frames P))))
        (after_frame positions positions_3d ps (length rows2) l P reset_cam w).
Proof.
  intros Hc Hplt HP.
  destruct (run_update_ok self w _ _ _ _ Hc) as (Hstep & Hsync & Hupd).
  destruct Hc as (H2 & H3 & Hps & Hpos & Ha2 & Ha3 & Hlen & Hsph).
  unfold ParticleSimulation.run_body.
  unfold bind at 1. rewrite Hstep. unfold bind at 1. rewrite Hsync.
  unfold ParticleSimulation.run_present. rewrite Hps.
  unfold ParticleSimulation.attr. unfold bind at 1. unfold ret at 1.
  unfold bind at 1. rewrite Hupd.
  cbn [ParticleSimulation.__plt]. rewrite Hplt.
  unfold vedo.show, vedo.getattr_escaped. unfold_monad.
  unfold after_run_update at 1. cbn [plotters]. rewrite HP. simpl.
  rewrite list_lookup_insert_eq by (by apply lookup_lt_Some in HP). simpl.
  unfold with_particles, after_frame, frame_calls, set_plotters. simpl.
  rewrite Hplt. destruct reset_cam; by rewrite <- !app_assoc.
Qed.

(** Without a plotter there is no frame. *)
Lemma run_body_no_plotter (self : ParticleSimulation.t) w positions positions_3d
    ps rows2 reset_cam :
  consistent_at self w positions positions_3d ps rows2 ->
  (match ParticleSimulation.__plt self with
   | None => True
   | Some l => plotters w !! l = None
   end) ->
  exists e, ParticleSimulation.run_body self reset_cam w
            = Raise e (after_run_update positions positions_3d ps (length rows2) w).
Proof.
  intros Hc Hplt.
  destruct (run_update_ok self w _ _ _ _ Hc) as (Hstep & Hsync & Hupd).
  destruct Hc as (H2 & H3 & Hps & Hpos & Ha2 & Ha3 & Hlen & Hsph).
  unfold ParticleSimulation.run_body.
  unfold bind at 1. rewrite Hstep. unfold bind at 1. rewrite Hsync.
  unfold ParticleSimulation.run_present. rewrite Hps.
  unfold ParticleSimulation.attr. unfold bind at 1. unfold ret at 1.
  unfold bind at 1. rewrite Hupd.
  cbn [ParticleSimulation.__plt].
  destruct (ParticleSimulation.__plt self) as [l|].
  - exists DanglingRef. unfold vedo.show. unfold_monad.
    unfold after_run_update at 1. cbn [plotters]. by rewrite Hplt.
  - exists AttributeError. reflexivity.
Qed.

Lemma placed_spheres a i ps n :
  Forall (fun p => Particle.vsphere p < n) ps ->
  Forall (fun p => Particle.vsphere p < n) (placed a i ps).
Proof.
  intros Hall. apply Forall_lookup. intros j p Hj.
  apply lookup_placed in Hj as (_ & q & Hq & ->).
  by apply (Forall_lookup_1 _ _ _ _ Hall Hq).
Qed.

Lemma after_frame_consistent (self : ParticleSimulation.t) w positions positions_3d
    ps rows2 l P reset_cam :
  consistent_at self w positions positions_3d ps rows2 ->
  consistent_at (with_particles self (placed_collection ps))
    (after_frame positions positions_3d ps (length rows2) l P reset_cam w)
    positions positions_3d (placed_collection ps)
    (positions_of (drv_frame (driver w)) (length rows2)).
Proof.
  intros (H2 & H3 & Hps & Hpos & Ha2 & Ha3 & Hlen & Hsph).
  unfold consistent_at, with_particles, placed_collection, after_frame. simpl.
  split_and!; try done.
  - apply list_lookup_insert_eq. by apply lookup_lt_Some in Ha2.
  - apply list_lookup_insert_eq. by apply lookup_lt_Some in Ha3.
  - by rewrite length_placed, positions_of_length.
  - rewrite length_moved. by apply placed_spheres.
Qed.

(** A frame that was shown was shown on a plotter. *)
Lemma run_body_inv (self : ParticleSimulation.t) w positions positions_3d ps rows2
    reset_cam r w' :
  consistent_at self w positions positions_3d ps rows2 ->
  ParticleSimulation.run_body self reset_cam w = Ret r w' ->
  exists l P,
    ParticleSimulation.__plt self = Some l /\ plotters w !! l = Some P /\
    r = (with_particles self (placed_collection ps), false,
         default false (pl_escaped P (S (pl_frames P)))) /\
    w' = after_frame positions positions_3d ps (length rows2) l P reset_cam w.
Proof.
  intros Hc Hrun.
  destruct (ParticleSimulation.__plt self) as [l|] eqn:Hplt.
  - destruct (plotters w !! l) as [P|] eqn:HP.
    + rewrite (run_body_ok self w _ _ _ _ l P reset_cam Hc Hplt HP) in Hrun.
      injection Hrun as <- <-. eauto 10.
    + destruct (run_body_no_plotter self w _ _ _ _ reset_cam Hc) as [e He];
        [by rewrite Hplt|]. by rewrite He in Hrun.
  - destruct (run_body_no_plotter self w _ _ _ _ reset_cam Hc) as [e He];
      [by rewrite Hplt|]. by rewrite He in Hrun.
Qed.

(** ** The states a [ParticleSimulation] goes through *)

Lemma reachable_consistent self w : reachable self w -> consistent self w.
Proof.
  induction 1 as
    [ plt n r_min r_max v_max w self w' Hinit
    | n self w self' w' _ IH Hset | v self w self' w' _ IH Hset
    | v self w self' w' _ IH Hset | v self w self' w' _ IH Hset
    | p self w self' w' _ IH Hset | flag self w self' w' _ IH Hset
    | reset_cam self w self' reset_cam' escaped w' _ IH Hrun
    | msg self w w' _ IH Hprint
    | self w w' _ IH Hdel ].
  - by apply init_system_consistent in Hinit.
  - by apply init_system_consistent in Hset.
  - by apply init_system_consistent in Hset.
  - by apply init_system_consistent in Hset.
  - by apply init_system_consistent in Hset.
  - injection Hset as <- <-. exact IH.
  - injection Hset as <- <-. exact IH.
  - destruct IH as (l2 & l3 & ps & rows2 & Hc).
    destruct (run_body_inv _ _ _ _ _ _ _ _ _ Hc Hrun) as (l & P & _ & _ & Hr & ->).
    injection Hr as -> _ _.
    eexists _, _, _, _. by apply after_frame_consistent.
  - injection Hprint as <-. exact IH.
  - injection Hdel as <-. exact IH.
Qed.

(** ** The loop of [run] *)

Lemma frame_calls_placed positions l ps n e reset_cam :
  frame_calls positions l (placed_collection ps) e n reset_cam
  = frame_calls positions l ps e n reset_cam.
Proof.
  unfold frame_calls, moves, placed_collection. simpl. by rewrite vsphere_placed.
Qed.

Lemma run_calls_placed positions l ps n k e reset_cam :
  run_calls positions l (placed_collection ps) n k e reset_cam
  = run_calls positions l ps n k e reset_cam.
Proof.
  revert e reset_cam. induction k as [|k IH]; intros e reset_cam;
    cbn [run_calls]; [done|].
  by rewrite frame_calls_placed, IH.
Qed.

Lemma run_loop_exits : forall k fuel self w positions positions_3d ps rows2 l P reset_cam,
  consistent_at self w positions positions_3d ps rows2 ->
  ParticleSimulation.__plt self = Some l -> plotters w !! l = Some P ->
  1 <= k -> k <= fuel ->
  (forall j, 1 <= j < k -> escaped_after P j = false) ->
  escaped_after P k = true ->
  exists self' w',
    ParticleSimulation.run_loop fuel self reset_cam w = ParticleSimulation.Exited self' w' /\
    events w' = events w ++ run_calls positions l ps (length rows2) k (driver w) reset_cam /\
    plotters w' !! l = Some (mkPlotter (pl_actors P) (pl_frames P + k) (pl_escaped P)) /\
    driver w' = Nat.iter k drv_frame (driver w) /\
    consistent self' w'.
Proof.
  induction k as [|k IH];
    intros fuel self w positions positions_3d ps rows2 l P reset_cam Hc Hplt HP Hk Hfuel Hnot Hesc;
    [lia|].
  destruct fuel as [|fuel]; [lia|].
  cbn [ParticleSimulation.run_loop].
  rewrite (run_body_ok self w _ _ _ _ l P reset_cam Hc Hplt HP).
  pose proof (after_frame_consistent self w _ _ _ _ l P reset_cam Hc) as Hc'.
  assert (Hone : default false (pl_escaped P (S (pl_frames P))) = escaped_after P 1).
  { unfold escaped_after. by rewrite Nat.add_1_r. }
  rewrite Hone.
  destruct (decide (k = 0)) as [->|Hk0].
  - rewrite Hesc. eexists _, _. split; [reflexivity|].
    unfold after_frame. simpl. rewrite app_nil_r.
    split_and!; try done.
    + rewrite Nat.add_1_r. apply list_lookup_insert_eq. by apply lookup_lt_Some in HP.
    + eexists _, _, _, _. exact Hc'.
  - rewrite (Hnot 1) by lia.
    assert (HP' : plotters (after_frame positions positions_3d ps (length rows2) l P reset_cam w) !! l
                  = Some (shown P)).
    { unfold after_frame. simpl. apply list_lookup_insert_eq. by apply lookup_lt_Some in HP. }
    destruct (IH fuel _ _ _ _ _ _ l (shown P) false Hc') as (self' & w' & Hrun & Hev & Hpl & Hdrv & Hcons).
    + done.
    + exact HP'.
    + lia.
    + lia.
    + intros j Hj. unfold escaped_after, shown. simpl.
      rewrite <- Nat.add_succ_r. apply Hnot. lia.
    + unfold escaped_after, shown. simpl. by rewrite <- Nat.add_succ_r.
    + exists self', w'. split; [exact Hrun|]. split_and!.
      * rewrite Hev. unfold after_frame at 1 2. simpl.
        rewrite positions_of_length, run_calls_placed. by rewrite <- app_assoc.
      * rewrite Hpl. unfold shown. simpl. by rewrite Nat.add_succ_r.
      * rewrite Hdrv, Nat.iter_succ_r. reflexivity.
      * exact Hcons.
Qed.

(** ** Calls that show no frame *)

Lemma silent_ret {A} (a : A) : silent (ret a).
Proof. by intros w. Qed.

Lemma silent_raise {A} (e : exn) : silent (@raise E A e).
Proof. by intros w. Qed.

Lemma silent_bind {A B} (m : M E A) (k : A -> M E B) :
  silent m -> (forall a, silent (k a)) -> silent (bind m k).
Proof.
  intros Hm Hk w. unfold bind. specialize (Hm w).
  destruct (m w) as [a w1|e w1]; simpl in *; [|done].
  by rewrite Hk.
Qed.

Lemma silent_load {A} (store : world E -> list A) (l : loc) : silent (load store l).
Proof. intros w. unfold load. by destruct (store w !! l). Qed.

Lemma silent_emit (ev : event) : show_flag ev = [] -> silent (emit ev).
Proof.
  intros Hev w. unfold shows, show_flags. simpl.
  by rewrite flat_map_app; simpl; rewrite Hev, !app_nil_r.
Qed.

Lemma silent_store (f : world E -> world E) :
  (forall w, events (f w) = events w) -> silent (fun w => Ret tt (f w)).
Proof. intros Hf w. unfold shows. simpl. by rewrite Hf. Qed.

Lemma silent_attr {A} (a : option A) : silent (ParticleSimulation.attr a).
Proof. destruct a; [apply silent_ret|apply silent_raise]. Qed.

Lemma silent_call (ev : event) (f : E -> E) :
  show_flag ev = [] -> silent (particle_driver.call ev f).
Proof.
  intros Hev. apply silent_bind; [by apply silent_emit|].
  intros _. by apply silent_store.
Qed.

Lemma silent_get_positions (buf : loc) : silent (particle_driver.get_positions buf).
Proof.
  apply silent_bind; [apply silent_load|]. intros old.
  apply silent_bind; [by apply silent_emit|]. intros _.
  intros w. reflexivity.
Qed.

Lemma silent_assign_xy (a b : loc) : silent (np.assign_xy a b).
Proof.
  apply silent_bind; [apply silent_load|]. intros src.
  apply silent_bind; [apply silent_load|]. intros dst.
  destruct (broadcast_xy dst src); [by apply silent_store|apply silent_raise].
Qed.

Lemma silent_run_step self : silent (ParticleSimulation.run_step self).
Proof.
  repeat (apply silent_bind; [by apply silent_call|intros _]).
  apply silent_bind; [apply silent_attr|]. intros l. apply silent_get_positions.
Qed.

Lemma silent_run_sync self : silent (ParticleSimulation.run_sync self).
Proof.
  apply silent_bind; [apply silent_attr|]. intros l2.
  apply silent_bind; [apply silent_attr|]. intros l3. apply silent_assign_xy.
Qed.

Lemma silent_set_pos (v : view) (p : Particle.t) : silent (Particle.set_pos v p).
Proof.
  apply silent_bind.
  { apply silent_bind; [apply silent_load|]. intros rows.
    destruct (rows !! _); [apply silent_ret|apply silent_raise]. }
  intros xyz. apply silent_bind; [|intros _; apply silent_ret].
  apply silent_bind; [apply silent_load|]. intros sph.
  apply silent_bind; [by apply silent_emit|]. intros _.
  by apply silent_store.
Qed.

Lemma silent_update_loop a : forall ps i, silent (Particles.update_loop a i ps).
Proof.
  induction ps as [|p ps IH]; intros i; [apply silent_ret|].
  cbn [Particles.update_loop].
  apply silent_bind.
  { apply silent_bind; [apply silent_load|]. intros rows.
    destruct (decide _); [apply silent_ret|apply silent_raise]. }
  intros v. apply silent_bind; [apply silent_set_pos|]. intros p'.
  apply silent_bind; [apply IH|]. intros rest'. apply silent_ret.
Qed.

Lemma silent_update ps : silent (Particles.update ps).
Proof.
  apply silent_bind; [apply silent_update_loop|]. intros l. apply silent_ret.
Qed.

Lemma silent_getattr_escaped plt dflt : silent (vedo.getattr_escaped plt dflt).
Proof.
  destruct plt as [l|]; [|apply silent_ret].
  apply silent_bind; [apply silent_load|]. intros P. apply silent_ret.
Qed.

(** [show] adds its flag to the trace when it returns, and nothing when it
    raises. *)
Lemma show_shows plt (b : bool) (axes : Z) w :
  match vedo.show plt b axes w with
  | Ret _ w' => shows w' = shows w ++ [b]
  | Raise _ w' => shows w' = shows w
  end.
Proof.
  unfold vedo.show. destruct plt as [l|]; [|done].
  unfold_monad. destruct (plotters w !! l); [|done].
  unfold shows, show_flags. simpl. by rewrite flat_map_app.
Qed.

(** One iteration shows one frame, with the flag it was given, and hands
    on [False]; if it raises, it has shown one frame or none. *)
Lemma run_body_shows self (reset_cam : bool) w :
  match ParticleSimulation.run_body self reset_cam w with
  | Ret (_, reset_cam', _) w' => shows w' = shows w ++ [reset_cam] /\ reset_cam' = false
  | Raise _ w' => shows w' = shows w \/ shows w' = shows w ++ [reset_cam]
  end.
Proof.
  unfold ParticleSimulation.run_body.
  unfold bind at 1. pose proof (silent_run_step self w) as H1.
  destruct (ParticleSimulation.run_step self w) as [[] w1|e w1]; simpl in H1; [|by left].
  unfold bind at 1. pose proof (silent_run_sync self w1) as H2.
  destruct (ParticleSimulation.run_sync self w1) as [[] w2|e w2]; simpl in H2;
    [|left; congruence].
  unfold ParticleSimulation.run_present.
  unfold bind at 1. pose proof (silent_attr (ParticleSimulation.__particles self) w2) as H3.
  destruct (ParticleSimulation.attr _ w2) as [ps w3|e w3]; simpl in H3;
    [|left; congruence].
  unfold bind at 1. pose proof (silent_update ps w3) as H4.
  destruct (Particles.update ps w3) as [ps' w4|e w4]; simpl in H4;
    [|left; congruence].
  cbn [ParticleSimulation.__plt].
  unfold bind at 1. pose proof (show_shows (ParticleSimulation.__plt self) reset_cam 1%Z w4) as H5.
  destruct (vedo.show _ _ _ w4) as [[] w5|e w5]; [|left; congruence].
  unfold bind at 1.
  pose proof (silent_getattr_escaped (ParticleSimulation.__plt self) false w5) as H6.
  destruct (vedo.getattr_escaped _ _ w5) as [esc w6|e w6]; simpl in H6.
  - unfold ret. split; [congruence|]. by destruct reset_cam.
  - right. congruence.
Qed.

Lemma camera_flags_false K : camera_flags false K = repeat false K.
Proof. by destruct K. Qed.

Lemma run_loop_shows : forall fuel self reset_cam w,
  exists K, shows (result_world (ParticleSimulation.run_loop fuel self reset_cam w))
            = shows w ++ camera_flags reset_cam K.
Proof.
  induction fuel as [|fuel IH]; intros self reset_cam w.
  - exists 0. simpl. by rewrite app_nil_r.
  - cbn [ParticleSimulation.run_loop].
    pose proof (run_body_shows self reset_cam w) as Hbody.
    destruct (ParticleSimulation.run_body self reset_cam w)
      as [[[self' reset_cam'] escaped] w1|e w1].
    + destruct Hbody as [Hshows ->]. destruct escaped.
      * exists 1. exact Hshows.
      * destruct (IH self' false w1) as [K HK]. exists (S K).
        rewrite HK, Hshows, camera_flags_false. by rewrite <- app_assoc.
    + destruct Hbody as [Hshows|Hshows].
      * exists 0. simpl. by rewrite app_nil_r.
      * exists 1. exact Hshows.
Qed.
(** ** More about the collection and the spheres *)

Lemma moved_other : forall ps rest (sphs : list sphere) s,
  s ∉ map Particle.vsphere ps -> moved rest ps sphs !! s = sphs !! s.
Proof.
  induction ps as [|q ps IH]; intros [|xyz rest] sphs s Hs; simpl; try done.
  simpl in Hs. apply not_elem_of_cons in Hs as [Hne Hs].
  rewrite (IH rest _ s Hs). by apply list_lookup_alter_ne.
Qed.

Lemma moved_at : forall ps rest (sphs : list sphere) j p xyz sph,
  NoDup (map Particle.vsphere ps) ->
  ps !! j = Some p -> rest !! j = Some xyz ->
  sphs !! Particle.vsphere p = Some sph ->
  moved rest ps sphs !! Particle.vsphere p = Some (move_sphere xyz sph).
Proof.
  induction ps as [|q ps IH]; intros [|r rest] sphs j p xyz sph Hnd Hp Hxyz Hsph;
    try done; try (by destruct j).
  simpl in Hnd. apply NoDup_cons in Hnd as [Hq Hnd].
  destruct j as [|j]; simpl in Hp, Hxyz.
  - injection Hp as ->. injection Hxyz as ->. simpl.
    rewrite (moved_other ps rest _ _ Hq).
    rewrite list_lookup_alter_eq.
    exact (f_equal (fmap (move_sphere xyz)) Hsph).
  - simpl. apply (IH rest _ j p xyz sph Hnd Hp Hxyz).
    rewrite list_lookup_alter_ne; [exact Hsph|].
    intros Heq. apply Hq. rewrite Heq.
    apply (list_elem_of_fmap_2 Particle.vsphere).
    by apply list_elem_of_lookup_2 in Hp.
Qed.

Lemma vsphere_built l a i s rest szs :
  map Particle.vsphere (built l a i s rest szs)
  = seq s (Nat.min (length rest) (length szs)).
Proof.
  revert i s szs. induction rest as [|r rest IH]; intros i s [|sz szs];
    simpl; try reflexivity. by rewrite IH.
Qed.

Lemma lookup_built_full l a i s rest szs j p :
  built l a i s rest szs !! j = Some p ->
  exists xyz sz,
    rest !! j = Some xyz /\ szs !! j = Some sz /\
    p = Particle.mk (View a (i + j)) (Some l) sz "gray" Particle.default_res
                    false (s + j).
Proof.
  revert i s szs j. induction rest as [|r rest IH]; intros i s [|sz szs] j;
    simpl; try discriminate.
  destruct j as [|j]; simpl.
  - intros [= <-]. rewrite !Nat.add_0_r. eauto.
  - intros Hj. apply IH in Hj. by rewrite !Nat.add_succ_r.
Qed.

Lemma lookup_zip_spheres (rest : list vec3) (szs : list double) j xyz sz :
  rest !! j = Some xyz -> szs !! j = Some sz ->
  zip_with sphere_of rest szs !! j = Some (sphere_of xyz sz).
Proof.
  revert szs j. induction rest as [|r rest IH]; intros [|z szs] [|j];
    simpl; try discriminate.
  - by intros [= ->] [= ->].
  - apply IH.
Qed.

(** A collection that was built is empty and has left the world alone, or
    it was built on a plotter. *)
Lemma Particles_init_cases plt a s w ps w1 :
  Particles.__init__ plt a s w = Ret ps w1 ->
  exists rows szs,
    arr_xyz w !! a = Some rows /\ arr_1d w !! s = Some szs /\
    ((Particles.__particles ps = [] /\ w1 = w) \/
     exists l P,
       plt = Some l /\ plotters w !! l = Some P /\
       ps = Particles.mk a s (Some l) (built l a 0 (length (spheres w)) rows szs) /\
       w1 = after_init_loop l P rows szs w).
Proof.
  intros Hinit.
  assert (exists rows szs, arr_xyz w !! a = Some rows /\ arr_1d w !! s = Some szs)
    as (rows & szs & Ha & Hs).
  { unfold Particles.__init__ in Hinit. unfold_monad.
    destruct (arr_xyz w !! a); [|discriminate].
    destruct (arr_1d w !! s); [|discriminate]. eauto. }
  exists rows, szs. split; [done|]. split; [done|].
  destruct (zip (Particles.rows_of a (length rows)) szs) as [|[v sz] items] eqn:Hzip.
  - left. unfold Particles.__init__ in Hinit. unfold_monad.
    rewrite Ha, Hs, Hzip in Hinit. simpl in Hinit. by injection Hinit as <- <-.
  - right.
    assert (exists l P, plt = Some l /\ plotters w !! l = Some P) as (l & P & -> & HP).
    { unfold Particles.__init__ in Hinit. unfold_monad.
      rewrite Ha, Hs, Hzip in Hinit. simpl in Hinit. unfold bind at 1 in Hinit.
      destruct (Particle.__init__ plt v sz _ _ _ w) as [p w2|] eqn:Hp; [|discriminate].
      apply Particle_init_inv in Hp as (l & P & _ & _ & -> & HP & _). eauto. }
    exists l, P. rewrite (Particles_init_ok l P a s rows szs w HP Ha Hs) in Hinit.
    by injection Hinit as <- <-.
Qed.

Lemma Particles_init_distinct plt a s w ps w1 :
  Particles.__init__ plt a s w = Ret ps w1 ->
  NoDup (map Particle.vsphere (Particles.__particles ps)).
Proof.
  intros Hinit.
  apply Particles_init_cases in Hinit
    as (rows & szs & _ & _ & [[-> _]|(l & P & _ & _ & -> & _)]); simpl.
  - constructor.
  - rewrite vsphere_built. apply NoDup_seq.
Qed.

End Specs.

(** * The claims *)

Section Claims.
Context {E : Type} `{!ParticleDriver E}.
Implicit Types (w : world E).

(** C1. After every synchronisation point the 3D buffer mirrors the 2D
    position buffer: in every state a [ParticleSimulation] reaches (the
    constructor and the setters end with the synchronisation of
    [__init_system]) the first two columns of [positions_3d] are the rows of
    [positions] and its third column is zero; and from every such state the
    driver calls and the copy of an iteration of [run] go through and leave
    the buffers in that relation again. *)
Theorem buffers_mirror_after_every_sync (self : ParticleSimulation.t) w :
  reachable self w ->
  synced self w /\
  exists w1 w2,
    ParticleSimulation.run_step self w = Ret tt w1 /\
    ParticleSimulation.run_sync self w1 = Ret tt w2 /\
    synced self w2.
Proof.
  intros Hreach. pose proof (reachable_consistent self w Hreach) as Hcons.
  split; [by apply consistent_synced|].
  destruct Hcons as (l2 & l3 & ps & rows2 & Hc).
  destruct (run_update_ok self w _ _ _ _ Hc) as (Hstep & Hsync & _).
  destruct Hc as (H2 & H3 & _ & _ & Ha2 & Ha3 & _).
  eexists _, _. split; [exact Hstep|]. split; [exact Hsync|].
  exists l2, l3. split; [done|]. split; [done|].
  eapply mirrors_lift3.
  - unfold after_run_sync, after_run_step. simpl.
    apply list_lookup_insert_eq. by apply lookup_lt_Some in Ha2.
  - unfold after_run_sync, after_run_step. simpl.
    apply list_lookup_insert_eq. by apply lookup_lt_Some in Ha3.
Qed.

(** C2. For a positive particle count, when [__init_system] returns, the
    position buffer, the size buffer and the list of particles of the
    collection all have exactly that many entries. *)
Theorem init_system_lengths (self : ParticleSimulation.t) w self' w' :
  (0 < ParticleSimulation.n_particles self)%Z ->
  ParticleSimulation.__init_system self w = Ret self' w' ->
  exists positions sizes ps rows2 szs,
    ParticleSimulation.__positions self' = Some positions /\
    ParticleSimulation.__sizes self' = Some sizes /\
    ParticleSimulation.__particles self' = Some ps /\
    arr_xy w' !! positions = Some rows2 /\
    arr_1d w' !! sizes = Some szs /\
    ParticleSimulation.n_particles self' = ParticleSimulation.n_particles self /\
    Z.of_nat (length rows2) = ParticleSimulation.n_particles self' /\
    Z.of_nat (length szs) = ParticleSimulation.n_particles self' /\
    Z.of_nat (length (Particles.__particles ps)) = ParticleSimulation.n_particles self'.
Proof.
  unfold ParticleSimulation.n_particles. intros Hpos Hinit.
  apply init_system_inv in Hinit
    as [Hn [(H0 & _)|(l & P & Hplt & HP & -> & ->)]]; [lia|].
  set (k := Z.to_nat (ParticleSimulation.__n_particles self)).
  set (e := drv_reinit self (driver w)).
  exists (length (arr_xy w)), (length (arr_1d w)), (built_collection self l w),
    (positions_of e k), (sizes_of e k).
  unfold initialised_object, built_collection, after_init_system, after_init_loop,
    after_init_buffers. simpl.
  rewrite !lookup_snoc. fold k e. split_and!; try reflexivity.
  - rewrite positions_of_length. lia.
  - unfold sizes_of. rewrite length_map, length_seq. lia.
  - rewrite length_built, length_map, positions_of_length.
    unfold sizes_of. rewrite length_map, length_seq. lia.
Qed.

(** C3, as the code has it. Building a [Particles] from a position array and
    a size array of unequal lengths does not fail: [zip] stops at the shorter
    of the two, and the collection gets one particle per pair.  Each of them
    registers its sphere with the scene: that many spheres are created, each
    is added to the plotter right after it is created, and the plotter's
    actors are then the ones it had followed by the new spheres, which are
    the spheres of the particles, in order. *)
Theorem Particles_init_truncates (l : loc) (P : plotter) (a s : loc)
    (rows : list vec3) (szs : list double) w :
  plotters w !! l = Some P ->
  arr_xyz w !! a = Some rows -> arr_1d w !! s = Some szs ->
  length rows <> length szs ->
  exists ps w',
    Particles.__init__ (Some l) a s w = Ret ps w' /\
    length (Particles.__particles ps) = Nat.min (length rows) (length szs) /\
    length (spheres w') = length (spheres w) + Nat.min (length rows) (length szs) /\
    map Particle.vsphere (Particles.__particles ps)
      = seq (length (spheres w)) (Nat.min (length rows) (length szs)) /\
    plotters w' !! l
      = Some (mkPlotter
                (pl_actors P ++ seq (length (spheres w))
                                    (Nat.min (length rows) (length szs)))
                (pl_frames P) (pl_escaped P)) /\
    events w'
      = events w ++ flat_map (fun sph => [EvSphere sph; EvAdd l sph])
                       (seq (length (spheres w))
                            (Nat.min (length rows) (length szs))).
Proof.
  intros HP Ha Hs _. eexists _, _.
  split; [by apply (Particles_init_ok l P a s rows szs)|].
  unfold after_init_loop. simpl.
  rewrite length_built, length_app, vsphere_built, !length_zip_spheres.
  split_and!; try done.
  apply list_lookup_insert_eq. by apply lookup_lt_Some in HP.
Qed.

(** C4. An iteration of the loop of [run] calls, in this order,
    [collision_check], [boundary_check], [update] and [get_positions] on
    the driver, then moves every sphere to its row of the 3D buffer, which by
    then holds the positions just read (with z = 0), then shows the frame, and
    only then looks at [escaped] ([frame_calls]).  So when [escaped] is first
    set after frame [k >= 1], [run] makes exactly [k] such iterations
    ([run_calls]) and returns. *)
Theorem run_exits_after_k_frames (self : ParticleSimulation.t) w (l : loc)
    (P : plotter) (k fuel : nat) :
  reachable self w ->
  ParticleSimulation.__plt self = Some l -> plotters w !! l = Some P ->
  1 <= k ->
  (forall j, 1 <= j < k -> escaped_after P j = false) ->
  escaped_after P k = true ->
  k <= fuel ->
  exists positions ps rows2 self' w',
    ParticleSimulation.__positions self = Some positions /\
    ParticleSimulation.__particles self = Some ps /\
    arr_xy w !! positions = Some rows2 /\
    ParticleSimulation.run fuel self w = ParticleSimulation.Exited self' w' /\
    events w' = events w ++ EvPrint "Run simulation..."
                  :: run_calls positions l ps (length rows2) k (driver w) true /\
    plotters w' !! l = Some (mkPlotter (pl_actors P) (pl_frames P + k) (pl_escaped P)).
Proof.
  intros Hreach Hplt HP Hk Hnot Hesc Hfuel.
  destruct (reachable_consistent self w Hreach) as (l2 & l3 & ps & rows2 & Hc).
  exists l2, ps, rows2.
  unfold ParticleSimulation.run, print, emit.
  set (w0 := mkWorld (arr_xy w) (arr_xyz w) (arr_1d w) (spheres w) (plotters w)
                     (driver w) (events w ++ [EvPrint "Run simulation..."])).
  assert (Hc0 : consistent_at self w0 l2 l3 ps rows2) by exact Hc.
  destruct (run_loop_exits k fuel self w0 l2 l3 ps rows2 l P true Hc0 Hplt HP Hk Hfuel Hnot Hesc)
    as (self' & w' & Hrun & Hev & Hpl & _ & _).
  exists self', w'. destruct Hc as (H2 & _ & Hps & _ & Ha2 & _).
  split_and!; try done.
  rewrite Hev. unfold w0. simpl. by rewrite <- app_assoc.
Qed.

(** C5. Of the frames a call of [run] presents, the first is shown with
    [resetcam=True] and every later one with [resetcam=False]: whatever the
    object, the world and the number of iterations made so far, the flags of
    the [show] calls the run has added to the trace are none, or [true]
    followed by [false] only. *)
Theorem camera_reset_only_on_first_frame (fuel : nat) (self : ParticleSimulation.t) w :
  exists K : nat,
    show_flags (events (result_world (ParticleSimulation.run fuel self w)))
    = show_flags (events w)
      ++ match K with
         | O => []
         | S m => true :: repeat false m
         end.
Proof.
  unfold ParticleSimulation.run, print, emit.
  destruct (run_loop_shows fuel self true
              (mkWorld (arr_xy w) (arr_xyz w) (arr_1d w) (spheres w) (plotters w)
                       (driver w) (events w ++ [EvPrint "Run simulation..."])))
    as [K HK].
  exists K. unfold shows in HK. rewrite HK. simpl.
  unfold show_flags. rewrite flat_map_app. simpl. by rewrite app_nil_r.
Qed.

Lemma driver_calls_spheres (l : loc) (ss : list loc) :
  List.filter is_driver_call (flat_map (fun s => [EvSphere s; EvAdd l s]) ss) = [].
Proof. induction ss as [|s ss IH]; simpl; [done|exact IH]. Qed.

Lemma init_system_reinitialises (self : ParticleSimulation.t) w l P :
  ParticleSimulation.__initialised self = true ->
  (0 <= ParticleSimulation.__n_particles self)%Z ->
  ParticleSimulation.__plt self = Some l -> plotters w !! l = Some P ->
  reinitialised (ParticleSimulation.__init_system self w) w
    (ParticleSimulation.__n_particles self) (ParticleSimulation.__r_min self)
    (ParticleSimulation.__r_max self) (ParticleSimulation.__v_max self).
Proof.
  intros Hinit Hn Hplt HP. unfold reinitialised.
  rewrite (init_system_ok self l P w Hn Hplt HP).
  eexists _, _, _, _. split; [reflexivity|].
  unfold initialised_object, built_collection, after_init_system, after_init_loop,
    after_init_buffers, init_calls. simpl. rewrite Hinit.
  split; [reflexivity|]. split; [|split].
  - cbn [Particles.__particles].
    rewrite length_built, length_map, positions_of_length.
    unfold sizes_of. rewrite length_map, length_seq. lia.
  - rewrite <- app_assoc. reflexivity.
  - unfold driver_calls. rewrite !List.filter_app, driver_calls_spheres.
    reflexivity.
Qed.

(** C6. On an initialised object, setting [n_particles] to [m] rebuilds the
    system: the collection then has exactly [m] particles, and the driver is
    told to deallocate the old system before it is told to initialise the new
    one.  The setters of [r_min], [r_max] and [v_max] make the same calls in
    the same order. *)
Theorem setters_deallocate_then_init (self : ParticleSimulation.t) w (l : loc)
    (P : plotter) (m : Z) (v : double) :
  ParticleSimulation.initialised self = true ->
  ParticleSimulation.__plt self = Some l -> plotters w !! l = Some P ->
  (0 <= m)%Z -> (0 <= ParticleSimulation.n_particles self)%Z ->
  reinitialised (ParticleSimulation.set_n_particles m self w) w
    m (ParticleSimulation.r_min self) (ParticleSimulation.r_max self)
    (ParticleSimulation.v_max self) /\
  reinitialised (ParticleSimulation.set_r_min v self w) w
    (ParticleSimulation.n_particles self) v (ParticleSimulation.r_max self)
    (ParticleSimulation.v_max self) /\
  reinitialised (ParticleSimulation.set_r_max v self w) w
    (ParticleSimulation.n_particles self) (ParticleSimulation.r_min self) v
    (ParticleSimulation.v_max self) /\
  reinitialised (ParticleSimulation.set_v_max v self w) w
    (ParticleSimulation.n_particles self) (ParticleSimulation.r_min self)
    (ParticleSimulation.r_max self) v.
Proof.
  unfold ParticleSimulation.initialised, ParticleSimulation.n_particles,
    ParticleSimulation.r_min, ParticleSimulation.r_max, ParticleSimulation.v_max.
  intros Hinit Hplt HP Hm Hn.
  destruct self as [n r_min r_max v_max plt initialised particles
                    positions positions_3d sizes].
  simpl in *. split_and!.
  - exact (init_system_reinitialises
             (ParticleSimulation.mk m r_min r_max v_max plt initialised particles
                positions positions_3d sizes) w l P Hinit Hm Hplt HP).
  - exact (init_system_reinitialises
             (ParticleSimulation.mk n v r_max v_max plt initialised particles
                positions positions_3d sizes) w l P Hinit Hn Hplt HP).
  - exact (init_system_reinitialises
             (ParticleSimulation.mk n r_min v v_max plt initialised particles
                positions positions_3d sizes) w l P Hinit Hn Hplt HP).
  - exact (init_system_reinitialises
             (ParticleSimulation.mk n r_min r_max v plt initialised particles
                positions positions_3d sizes) w l P Hinit Hn Hplt HP).
Qed.

(** C7, as the code has it. [__del__] does not look at the flag
    [initialised], nor does it clear it: every call prints and tells the
    driver to deallocate, so two calls in a row make two deallocations. *)
Theorem del_deallocates_on_every_call (self : ParticleSimulation.t) w :
  exists w1 w2,
    ParticleSimulation.__del__ self w = Ret tt w1 /\
    ParticleSimulation.__del__ self w1 = Ret tt w2 /\
    events w1 = events w ++ [EvPrint "End simulation..."; EvDeallocate] /\
    events w2 = events w1 ++ [EvPrint "End simulation..."; EvDeallocate] /\
    driver w2 = drv_deallocate_system (drv_deallocate_system (driver w)).
Proof.
  eexists _, _. split; [reflexivity|]. split; [reflexivity|].
  simpl. by rewrite <- !app_assoc.
Qed.

(** C8. The setters of [r] and [res] store the new value and nothing else:
    after either of them the world is the one before, so the sphere that the
    constructor registered still has the radius and the resolution it was
    created with, while the getters answer the new values. *)
Theorem radius_and_res_setters_keep_sphere (plt : option loc) (pos : view)
    (radius : double) (color : string) (res : Z) (trail : bool) w
    (p : Particle.t) w1 (v : double) (n : Z) :
  Particle.__init__ plt pos radius color res trail w = Ret p w1 ->
  exists p1 p2 sph,
    Particle.set_r v p w1 = Ret p1 w1 /\
    Particle.r p1 = v /\ Particle.vsphere p1 = Particle.vsphere p /\
    Particle.set_res n p w1 = Ret p2 w1 /\
    Particle.res p2 = n /\ Particle.vsphere p2 = Particle.vsphere p /\
    spheres w1 !! Particle.vsphere p = Some sph /\
    s_r sph = radius /\ s_res sph = res.
Proof.
  intros Hinit.
  pose proof (Particle_init_inv _ _ _ _ _ _ _ _ _ Hinit)
    as (l & P & rows & xyz & -> & HP & Ha & Hr).
  rewrite (Particle_init_ok l P pos rows xyz radius color res trail w HP Ha Hr) in Hinit.
  injection Hinit as <- <-.
  eexists _, _, _. split; [reflexivity|]. split; [reflexivity|].
  split; [reflexivity|]. split; [reflexivity|]. split; [reflexivity|].
  split; [reflexivity|]. unfold after_Particle. simpl.
  split; [apply lookup_snoc|]. by split.
Qed.

(** C9. The constructor of [Particle] does not use its [color] argument:
    whatever is passed, the object it returns stores ['gray'], the sphere is
    created with ['gray'], and the call is the one with ['gray'] passed; the
    stored colour changes only when the property is set. *)
Theorem color_argument_is_ignored (plt : option loc) (pos : view)
    (radius : double) (color : string) (res : Z) (trail : bool) w
    (p : Particle.t) w1 :
  Particle.__init__ plt pos radius color res trail w = Ret p w1 ->
  Particle.color p = "gray" /\
  (exists sph, spheres w1 !! Particle.vsphere p = Some sph /\ s_c sph = "gray") /\
  Particle.__init__ plt pos radius "gray" res trail w = Ret p w1 /\
  forall c : string,
    exists p', Particle.set_color c p w1 = Ret p' w1 /\ Particle.color p' = c.
Proof.
  intros Hinit. split_and!.
  - pose proof (Particle_init_inv _ _ _ _ _ _ _ _ _ Hinit)
      as (l & P & rows & xyz & -> & HP & Ha & Hr).
    rewrite (Particle_init_ok l P pos rows xyz radius color res trail w HP Ha Hr) in Hinit.
    by injection Hinit as <- <-.
  - pose proof (Particle_init_inv _ _ _ _ _ _ _ _ _ Hinit)
      as (l & P & rows & xyz & -> & HP & Ha & Hr).
    rewrite (Particle_init_ok l P pos rows xyz radius color res trail w HP Ha Hr) in Hinit.
    injection Hinit as <- <-. eexists. unfold after_Particle. simpl.
    split; [apply lookup_snoc|done].
  - exact Hinit.
  - intros c. eexists. split; reflexivity.
Qed.

(** C10. [zip] makes [Particles.__init__] build exactly
    [min(len(positions), len(sizes))] particles, so [update] never indexes
    the position array out of range: whatever has been written into that
    array in the meantime, [update] returns.  It has then assigned
    [positions[i]] to the [pos] of every particle [i], in order: the trace
    has grown by one call of the sphere's [pos] per particle, with the
    coordinates of row [i], particle [i] shows row [i], and its sphere sits
    at the coordinates of that row. *)
Theorem update_stays_in_range (plt : option loc) (a s : loc) w
    (ps : Particles.t) w1 :
  Particles.__init__ plt a s w = Ret ps w1 ->
  exists rows szs,
    arr_xyz w !! a = Some rows /\ arr_1d w !! s = Some szs /\
    length (Particles.__particles ps) = Nat.min (length rows) (length szs) /\
    forall rows' : list vec3, length rows' = length rows ->
      exists ps' w2,
        Particles.update ps (overwrite a rows' w1) = Ret ps' w2 /\
        length (Particles.__particles ps') = length (Particles.__particles ps) /\
        events w2
          = events w1
            ++ zip_with EvSpherePos
                 (map Particle.vsphere (Particles.__particles ps)) rows' /\
        forall i p', Particles.__particles ps' !! i = Some p' ->
          Particle.pos p' = View a i /\
          exists xyz sph,
            rows' !! i = Some xyz /\
            np.read (Particle.pos p') w2 = Ret xyz w2 /\
            spheres w2 !! Particle.vsphere p' = Some sph /\
            s_pos sph = xyz.
Proof.
  intros Hinit.
  pose proof (Particles_init_distinct _ _ _ _ _ _ Hinit) as Hnd.
  apply Particles_init_inv in Hinit
    as (rows & szs & Ha & Hs & Harr & _ & Hpos & Hlen & Hps).
  exists rows, szs. split_and!; try done.
  intros rows' Hrows'.
  assert (Ha' : arr_xyz (overwrite a rows' w1) !! Particles.__positions ps = Some rows').
  { rewrite Hpos. unfold overwrite. simpl. apply list_lookup_insert_eq.
    rewrite Harr. by apply lookup_lt_Some in Ha. }
  assert (Hall : Forall (fun p => Particle.vsphere p < length (spheres w1))
                        (Particles.__particles ps)).
  { apply Forall_lookup. intros j p Hj. by apply Hps in Hj as (_ & _ & Hv). }
  eexists _, _. split.
  - apply (Particles_update_ok ps rows' _ Ha'); [lia|exact Hall].
  - simpl. split; [apply length_placed|]. split; [reflexivity|].
    intros i p' Hi. pose proof (lookup_lt_Some _ _ _ Hi) as Hlt.
    rewrite length_placed in Hlt.
    apply lookup_placed in Hi as (Hv & q & Hq & Hvs). simpl in Hv. rewrite Hpos in Hv.
    unfold Particle.pos. split; [exact Hv|].
    destruct (lookup_lt_is_Some_2 rows' i) as [xyz Hxyz]; [lia|].
    destruct (lookup_lt_is_Some_2 (spheres w1) (Particle.vsphere q)) as [sph0 Hs0].
    { by apply (Forall_lookup_1 _ _ _ _ Hall Hq). }
    exists xyz, (move_sphere xyz sph0). split; [exact Hxyz|]. split_and!.
    + rewrite Hv. apply (read_ok _ _ rows'); [|exact Hxyz].
      simpl. apply list_lookup_insert_eq. rewrite Harr. by apply lookup_lt_Some in Ha.
    + rewrite Hvs. by apply (moved_at _ _ _ i).
    + reflexivity.
Qed.
End Claims.

(** * Further properties of the code *)

Section Further.
Context {E : Type} `{!ParticleDriver E}.
Implicit Types (w : world E).

(** ** Edge cases of [__init_system] *)

(** X1. A negative particle count makes [np.zeros] raise [ValueError].  The
    constructor then leaves the world as it was.  The setter of
    [n_particles] on an initialised object has by then told the driver to
    deallocate: the system is gone and no new one is set up. *)
Theorem negative_count_raises (self : ParticleSimulation.t) w (plt : option loc)
    (m : Z) (r_min r_max v_max : double) :
  (m < 0)%Z ->
  ParticleSimulation.__init__ plt m r_min r_max v_max w = Raise ValueError w /\
  (ParticleSimulation.initialised self = true ->
   ParticleSimulation.set_n_particles m self w
   = Raise ValueError
       (mkWorld (arr_xy w) (arr_xyz w) (arr_1d w) (spheres w) (plotters w)
                (drv_deallocate_system (driver w)) (events w ++ [EvDeallocate]))).
Proof.
  intros Hm. apply Z.ltb_lt in Hm. split.
  - unfold ParticleSimulation.__init__, ParticleSimulation.__init_system,
      ParticleSimulation.init_buffers, ParticleSimulation.n_particles,
      ParticleSimulation.initialised, np.zeros_xy.
    unfold_monad. simpl. by rewrite Hm.
  - unfold ParticleSimulation.initialised. intros Hinit.
    unfold ParticleSimulation.set_n_particles, ParticleSimulation.__init_system,
      ParticleSimulation.init_buffers, ParticleSimulation.n_particles,
      ParticleSimulation.initialised, np.zeros_xy,
      particle_driver.deallocate_system, particle_driver.call.
    unfold_monad. simpl. by rewrite Hinit, Hm.
Qed.

(** X3. With a particle count of zero [__init_system] needs no plotter at
    all: it returns, with three empty arrays and an empty collection, and
    neither the spheres nor the plotters have changed. *)
Theorem zero_particles_need_no_plotter (self : ParticleSimulation.t) w :
  ParticleSimulation.n_particles self = 0%Z ->
  exists self' w' positions positions_3d sizes ps,
    ParticleSimulation.__init_system self w = Ret self' w' /\
    ParticleSimulation.__positions self' = Some positions /\
    ParticleSimulation.__positions_3d self' = Some positions_3d /\
    ParticleSimulation.__sizes self' = Some sizes /\
    ParticleSimulation.__particles self' = Some ps /\
    ParticleSimulation.initialised self' = true /\
    Particles.__particles ps = [] /\
    arr_xy w' !! positions = Some [] /\
    arr_xyz w' !! positions_3d = Some [] /\
    arr_1d w' !! sizes = Some [] /\
    spheres w' = spheres w /\ plotters w' = plotters w.
Proof.
  unfold ParticleSimulation.n_particles. intros H0.
  assert (Hn : (0 <= ParticleSimulation.__n_particles self)%Z) by lia.
  exists (initialised_object self
            (Particles.mk (length (arr_xyz w)) (length (arr_1d w))
                          (ParticleSimulation.__plt self) []) w),
    (after_init_buffers self w),
    (length (arr_xy w)), (length (arr_xyz w)), (length (arr_1d w)),
    (Particles.mk (length (arr_xyz w)) (length (arr_1d w))
                  (ParticleSimulation.__plt self) []).
  split.
  - unfold ParticleSimulation.__init_system. unfold bind at 1.
    rewrite (init_buffers_ok self w Hn).
    unfold bind at 1. unfold Particles.__init__.
    unfold bind at 1. unfold load at 1.
    unfold after_init_buffers at 1. cbn [arr_xyz]. rewrite lookup_snoc.
    unfold bind at 1. unfold load at 1.
    unfold after_init_buffers at 1. cbn [arr_1d]. rewrite lookup_snoc.
    replace (sizes_of (drv_reinit self (driver w))
               (Z.to_nat (ParticleSimulation.__n_particles self)))
      with (@nil double) by (by rewrite H0).
    replace (zip (Particles.rows_of (length (arr_xyz w))
                    (length (map lift3
                       (positions_of (drv_reinit self (driver w))
                          (Z.to_nat (ParticleSimulation.__n_particles self))))))
                 (@nil double))
      with (@nil (view * double)) by (by rewrite H0).
    reflexivity.
  - unfold initialised_object, after_init_buffers. simpl.
    rewrite !lookup_snoc, H0. by split_and!.
Qed.

(** X4. The constructor never tells the driver to deallocate: when it
    returns, its calls to the driver were [init_system] with its arguments,
    [get_sizes] and [get_positions], in this order, the flag [initialised]
    is set, and the properties are the arguments. *)
Theorem constructor_driver_calls (plt : option loc) (n : Z)
    (r_min r_max v_max : double) w (self : ParticleSimulation.t) w' :
  ParticleSimulation.__init__ plt n r_min r_max v_max w = Ret self w' ->
  (exists new,
     events w' = events w ++ new /\
     driver_calls new
     = [EvInit n r_min r_max v_max;
        EvGetSizes (length (arr_1d w)); EvGetPositions (length (arr_xy w))]) /\
  ParticleSimulation.initialised self = true /\
  ParticleSimulation.n_particles self = n /\
  ParticleSimulation.r_min self = r_min /\
  ParticleSimulation.r_max self = r_max /\
  ParticleSimulation.v_max self = v_max /\
  ParticleSimulation.plt self = plt.
Proof.
  unfold ParticleSimulation.__init__. intros Hinit.
  apply init_system_inv in Hinit
    as [Hn [(H0 & -> & ->)|(l & P & Hplt & HP & -> & ->)]].
  - split; [|by split_and!].
    eexists. unfold after_init_buffers, init_calls. simpl.
    split; reflexivity.
  - split; [|by split_and!].
    eexists. unfold after_init_system, after_init_loop, after_init_buffers,
      init_calls. simpl. split; [by rewrite <- app_assoc|].
    unfold driver_calls. rewrite List.filter_app, driver_calls_spheres.
    reflexivity.
Qed.
(** What [Particle.__init__] leaves behind when there is no plotter: the
    sphere exists, with its trail, but no scene holds it. *)
Lemma Particle_init_no_plotter (pos : view) rows xyz (radius : double)
    (color : string) (res : Z) (trail : bool) w :
  arr_xyz w !! v_base pos = Some rows -> rows !! v_row pos = Some xyz ->
  Particle.__init__ None pos radius color res trail w
  = Raise AttributeError
      (mkWorld (arr_xy w) (arr_xyz w) (arr_1d w)
         (spheres w ++ [mkSphere xyz radius "gray" res
                          (if trail then Some (mkTrail 1 1 50 "g") else None)])
         (plotters w) (driver w)
         (events w ++ EvSphere (length (spheres w))
                   :: (if trail then [EvAddTrail (length (spheres w))] else []))).
Proof.
  intros Ha Hr. unfold Particle.__init__.
  unfold bind at 1. rewrite (read_ok _ _ _ _ Ha Hr).
  unfold vedo.Sphere, vedo.addTrail, vedo.add. unfold_monad.
  destruct trail; simpl.
  - rewrite lookup_snoc. unfold set_spheres. simpl.
    rewrite insert_snoc. by rewrite <- !app_assoc.
  - reflexivity.
Qed.

(** X2. Without a plotter the constructor cannot build a single particle:
    for a positive count it raises [AttributeError] at the first
    [plt.add], when the driver has already set up its system and handed
    out sizes and positions and the first sphere has been created. *)
Theorem constructor_without_plotter (n : Z) (r_min r_max v_max : double) w :
  (0 < n)%Z ->
  exists w',
    ParticleSimulation.__init__ None n r_min r_max v_max w = Raise AttributeError w' /\
    events w' = events w ++ [EvPrint "Initialise system...";
                             EvInit n r_min r_max v_max;
                             EvGetSizes (length (arr_1d w));
                             EvGetPositions (length (arr_xy w));
                             EvSphere (length (spheres w))] /\
    driver w' = drv_init_system n r_min r_max v_max (driver w) /\
    length (spheres w') = S (length (spheres w)) /\
    plotters w' = plotters w.
Proof.
  intros Hn.
  set (self := ParticleSimulation.mk n r_min r_max v_max None false None None None None).
  assert (Hn0 : (0 <= ParticleSimulation.__n_particles self)%Z) by (simpl; lia).
  destruct (Z.to_nat n) as [|k] eqn:Hk; [lia|].
  set (e := drv_init_system n r_min r_max v_max (driver w)).
  exists (mkWorld (arr_xy (after_init_buffers self w)) (arr_xyz (after_init_buffers self w))
            (arr_1d (after_init_buffers self w))
            (spheres w ++ [mkSphere (lift3 (drv_position e 0)) (drv_size e 0) "gray"
                             Particle.default_res None])
            (plotters w) e
            (events (after_init_buffers self w) ++ [EvSphere (length (spheres w))])).
  split.
  - unfold ParticleSimulation.__init__. fold self.
    unfold ParticleSimulation.__init_system. unfold bind at 1.
    rewrite (init_buffers_ok self w Hn0).
    unfold bind at 1. unfold Particles.__init__.
    unfold bind at 1. unfold load at 1.
    unfold after_init_buffers at 1. cbn [arr_xyz]. rewrite lookup_snoc.
    unfold bind at 1. unfold load at 1.
    unfold after_init_buffers at 1. cbn [arr_1d]. rewrite lookup_snoc.
    unfold positions_of, sizes_of, Particles.rows_of.
    rewrite !length_map, length_seq.
    cbn [ParticleSimulation.__n_particles self]. rewrite Hk.
    cbn [seq map zip zip_with Particles.init_loop].
    unfold bind at 1 2.
    erewrite Particle_init_no_plotter.
    + reflexivity.
    + unfold after_init_buffers. cbn [arr_xyz v_base]. apply lookup_snoc.
    + cbn [ParticleSimulation.__n_particles self]. unfold positions_of.
      rewrite Hk. reflexivity.
  - unfold after_init_buffers, init_calls. simpl.
    split; [by rewrite <- app_assoc|]. split; [done|].
    split; [|done]. rewrite length_app. simpl. lia.
Qed.

(** ** [Particle] and [Particles] *)

(** X6. A [Particle] that was built has registered exactly one new sphere
    with its plotter: the sphere sits at the coordinates the position showed,
    has the radius and resolution given, and carries a trail of 50 samples
    exactly when [use_trail] was set, attached before the sphere was added to
    the scene. *)
Theorem Particle_init_registers_one_sphere (plt : option loc) (pos : view)
    (radius : double) (color : string) (res : Z) (trail : bool) w
    (p : Particle.t) w1 :
  Particle.__init__ plt pos radius color res trail w = Ret p w1 ->
  exists l P rows xyz,
    plt = Some l /\ plotters w !! l = Some P /\
    arr_xyz w !! v_base pos = Some rows /\ rows !! v_row pos = Some xyz /\
    Particle.pos p = pos /\ Particle.r p = radius /\ Particle.res p = res /\
    Particle.use_trail p = trail /\
    Particle.vsphere p = length (spheres w) /\
    spheres w1 = spheres w ++ [mkSphere xyz radius "gray" res
                                 (if trail then Some (mkTrail 1 1 50 "g") else None)] /\
    plotters w1 = <[l := mkPlotter (pl_actors P ++ [Particle.vsphere p])
                                   (pl_frames P) (pl_escaped P)]> (plotters w) /\
    events w1 = events w ++ EvSphere (Particle.vsphere p)
                  :: (if trail then [EvAddTrail (Particle.vsphere p)] else [])
                  ++ [EvAdd l (Particle.vsphere p)] /\
    arr_xy w1 = arr_xy w /\ arr_xyz w1 = arr_xyz w /\ arr_1d w1 = arr_1d w.
Proof.
  intros Hinit.
  pose proof (Particle_init_inv _ _ _ _ _ _ _ _ _ Hinit)
    as (l & P & rows & xyz & -> & HP & Ha & Hr).
  rewrite (Particle_init_ok l P pos rows xyz radius color res trail w HP Ha Hr) in Hinit.
  injection Hinit as <- <-.
  exists l, P, rows, xyz. unfold after_Particle. simpl. by split_and!.
Qed.

(** X7. Setting [pos] stores the new position and moves the particle's own
    sphere to the coordinates that position shows, and that is all: the
    sphere keeps its radius, colour, resolution and trail, every other
    sphere, the arrays and the plotters stay as they are. *)
Theorem set_pos_moves_only_its_sphere (v : view) (p : Particle.t) w
    (p' : Particle.t) w' :
  Particle.set_pos v p w = Ret p' w' ->
  exists rows xyz sph,
    arr_xyz w !! v_base v = Some rows /\ rows !! v_row v = Some xyz /\
    spheres w !! Particle.vsphere p = Some sph /\
    Particle.pos p' = v /\ Particle.r p' = Particle.r p /\
    Particle.color p' = Particle.color p /\ Particle.res p' = Particle.res p /\
    Particle.use_trail p' = Particle.use_trail p /\
    Particle.vsphere p' = Particle.vsphere p /\
    spheres w' !! Particle.vsphere p
      = Some (mkSphere xyz (s_r sph) (s_c sph) (s_res sph) (s_trail sph)) /\
    (forall s, s <> Particle.vsphere p -> spheres w' !! s = spheres w !! s) /\
    arr_xy w' = arr_xy w /\ arr_xyz w' = arr_xyz w /\ arr_1d w' = arr_1d w /\
    plotters w' = plotters w /\ driver w' = driver w /\
    events w' = events w ++ [EvSpherePos (Particle.vsphere p) xyz].
Proof.
  unfold Particle.set_pos. cbn [Particle.__pos Particle.vsphere].
  unfold bind at 1.
  destruct (np.read v w) as [xyz w0|] eqn:Hread; [|discriminate].
  apply read_inv in Hread as [-> (rows & Ha & Hr)].
  unfold bind at 1.
  destruct (spheres w !! Particle.vsphere p) as [sph|] eqn:Hs.
  - rewrite (sphere_pos_ok _ xyz sph w Hs). unfold ret. intros [= <- <-].
    exists rows, xyz, sph. simpl. split_and!; try done.
    + apply list_lookup_insert_eq. by apply lookup_lt_Some in Hs.
    + intros s Hne. by apply list_lookup_insert_ne.
  - unfold vedo.pos. unfold_monad. by rewrite Hs.
Qed.

(** X5. Every particle of a collection that was built has the defaults of
    [Particle]: particle [i] shows row [i] of the positions, has the radius
    [sizes[i]], the colour ['gray'], resolution 8 and no trail, and its
    sphere was created at the coordinates of row [i] with exactly these
    attributes. *)
Theorem collection_particles_have_defaults (plt : option loc) (a s : loc) w
    (ps : Particles.t) w1 :
  Particles.__init__ plt a s w = Ret ps w1 ->
  exists rows szs,
    arr_xyz w !! a = Some rows /\ arr_1d w !! s = Some szs /\
    forall i p, Particles.__particles ps !! i = Some p ->
      exists xyz sz,
        rows !! i = Some xyz /\ szs !! i = Some sz /\
        Particle.pos p = View a i /\ Particle.r p = sz /\
        Particle.color p = "gray" /\ Particle.res p = 8%Z /\
        Particle.use_trail p = false /\
        Particle.vsphere p = length (spheres w) + i /\
        spheres w1 !! Particle.vsphere p = Some (mkSphere xyz sz "gray" 8 None).
Proof.
  intros Hinit.
  apply Particles_init_cases in Hinit
    as (rows & szs & Ha & Hs & [[Hnil ->]|(l & P & -> & HP & -> & ->)]).
  - exists rows, szs. split_and!; try done.
    intros i p Hi. by rewrite Hnil, lookup_nil in Hi.
  - exists rows, szs. split_and!; try done.
    intros i p Hi. simpl in Hi.
    apply lookup_built_full in Hi as (xyz & sz & Hxyz & Hsz & ->).
    exists xyz, sz. unfold after_init_loop. simpl. split_and!; try done.
    rewrite lookup_app_r by lia.
    replace (length (spheres w) + i - length (spheres w)) with i by lia.
    by apply lookup_zip_spheres.
Qed.

(** X8. The position of a particle is a live view of its row: as soon as
    the array is rewritten in place, and before [update] is called, [pos]
    shows the new row, while the sphere is still where the old row put it. *)
Theorem pos_is_a_live_view (plt : option loc) (a s : loc) w
    (ps : Particles.t) w1 :
  Particles.__init__ plt a s w = Ret ps w1 ->
  exists rows,
    arr_xyz w !! a = Some rows /\
    forall rows' : list vec3, length rows' = length rows ->
      forall i p, Particles.__particles ps !! i = Some p ->
        exists old new sph,
          rows !! i = Some old /\ rows' !! i = Some new /\
          np.read (Particle.pos p) (overwrite a rows' w1)
            = Ret new (overwrite a rows' w1) /\
          spheres (overwrite a rows' w1) !! Particle.vsphere p = Some sph /\
          s_pos sph = old.
Proof.
  intros Hinit.
  destruct (collection_particles_have_defaults _ _ _ _ _ _ Hinit)
    as (rows & szs & Ha & Hs & Hps).
  apply Particles_init_inv in Hinit as (rows0 & _ & Ha0 & _ & Harr & _).
  rewrite Ha in Ha0. injection Ha0 as <-.
  exists rows. split; [done|]. intros rows' Hlen i p Hi.
  destruct (Hps i p Hi) as (xyz & sz & Hxyz & _ & Hpos & _ & _ & _ & _ & _ & Hsph).
  destruct (lookup_lt_is_Some_2 rows' i) as [new Hnew].
  { rewrite Hlen. by apply lookup_lt_Some in Hxyz. }
  exists xyz, new, (mkSphere xyz sz "gray" 8 None).
  split_and!; try done.
  rewrite Hpos. apply (read_ok _ _ rows'); [|exact Hnew].
  unfold overwrite. simpl. apply list_lookup_insert_eq.
  rewrite Harr. by apply lookup_lt_Some in Ha.
Qed.

(** ** What an iteration of [run] does to the spheres *)

Lemma moved_attrs : forall ps rest (sphs : list sphere) s sph',
  moved rest ps sphs !! s = Some sph' ->
  exists sph, sphs !! s = Some sph /\
    s_r sph' = s_r sph /\ s_c sph' = s_c sph /\
    s_res sph' = s_res sph /\ s_trail sph' = s_trail sph.
Proof.
  induction ps as [|q ps IH]; intros [|xyz rest] sphs s sph' Hs; simpl in Hs;
    try (by exists sph').
  apply IH in Hs as (sph1 & Hs1 & Hr & Hc & Hres & Ht).
  destruct (decide (s = Particle.vsphere q)) as [->|Hne].
  - rewrite list_lookup_alter_eq in Hs1.
    apply fmap_Some in Hs1 as (sph & Hsph & ->).
    exists sph. split; [exact Hsph|]. by split_and!.
  - rewrite list_lookup_alter_ne in Hs1 by done.
    exists sph1. by split_and!.
Qed.

Lemma init_system_distinct (self : ParticleSimulation.t) w self' w' :
  ParticleSimulation.__init_system self w = Ret self' w' -> distinct_spheres self'.
Proof.
  intros Hinit.
  apply init_system_inv in Hinit
    as [_ [(_ & -> & _)|(l & P & _ & _ & -> & _)]]; intros ps [= <-]; simpl.
  - constructor.
  - rewrite vsphere_built. apply NoDup_seq.
Qed.

Lemma reachable_distinct (self : ParticleSimulation.t) w :
  reachable self w -> distinct_spheres self.
Proof.
  induction 1 as
    [ plt n r_min r_max v_max w self w' Hinit
    | n self w self' w' _ IH Hset | v self w self' w' _ IH Hset
    | v self w self' w' _ IH Hset | v self w self' w' _ IH Hset
    | p self w self' w' _ IH Hset | flag self w self' w' _ IH Hset
    | reset_cam self w self' reset_cam' escaped w' Hreach IH Hrun
    | msg self w w' _ IH Hprint
    | self w w' _ IH Hdel ]; try exact IH;
    try (by apply init_system_distinct in Hset).
  - by apply init_system_distinct in Hinit.
  - injection Hset as <- <-. exact IH.
  - injection Hset as <- <-. exact IH.
  - destruct (reachable_consistent _ _ Hreach) as (l2 & l3 & ps & rows2 & Hc).
    destruct (run_body_inv _ _ _ _ _ _ _ _ _ Hc Hrun) as (l & P & _ & _ & Hr & _).
    injection Hr as -> _ _. intros ps' [= <-]. simpl.
    rewrite vsphere_placed. apply IH. by destruct Hc as (_ & _ & Hps & _).
Qed.

Lemma lookup_positions_of (e : E) n i :
  i < n -> positions_of e n !! i = Some (drv_position e i).
Proof.
  intros Hi. unfold positions_of.
  change (map (drv_position e) (seq 0 n)) with (drv_position e <$> seq 0 n).
  by rewrite list_lookup_fmap, lookup_seq_lt.
Qed.

Lemma lookup_map_lift3 (rows2 : list vec2) i p :
  rows2 !! i = Some p -> map lift3 rows2 !! i = Some (lift3 p).
Proof.
  intros Hi. change (map lift3 rows2) with (lift3 <$> rows2).
  by rewrite list_lookup_fmap, Hi.
Qed.

(** X9. After an iteration of [run] every particle and its sphere are where
    the driver now has that particle: particle [i] shows, and its sphere sits
    at, the position [i] that the driver reports after its three calls, with
    z = 0. *)
Theorem frame_puts_spheres_at_positions (self : ParticleSimulation.t) w
    (reset_cam : bool) (self' : ParticleSimulation.t) (reset_cam' escaped : bool) w' :
  reachable self w ->
  ParticleSimulation.run_body self reset_cam w = Ret (self', reset_cam', escaped) w' ->
  driver w' = drv_frame (driver w) /\
  exists ps',
    ParticleSimulation.__particles self' = Some ps' /\
    forall i p, Particles.__particles ps' !! i = Some p ->
      exists sph,
        np.read (Particle.pos p) w' = Ret (lift3 (drv_position (driver w') i)) w' /\
        spheres w' !! Particle.vsphere p = Some sph /\
        s_pos sph = lift3 (drv_position (driver w') i).
Proof.
  intros Hreach Hrun.
  pose proof (reachable_distinct _ _ Hreach) as Hnd.
  destruct (reachable_consistent _ _ Hreach) as (l2 & l3 & ps & rows2 & Hc).
  destruct (run_body_inv _ _ _ _ _ _ _ _ _ Hc Hrun) as (l & P & _ & _ & Hr & ->).
  injection Hr as -> _ _.
  destruct Hc as (H2 & H3 & Hps & Hpos & Ha2 & Ha3 & Hlen & Hsph).
  split; [reflexivity|].
  exists (placed_collection ps). split; [reflexivity|].
  intros i p Hi. simpl in Hi.
  pose proof (lookup_lt_Some _ _ _ Hi) as Hlt. rewrite length_placed in Hlt.
  apply lookup_placed in Hi as (Hv & q & Hq & Hvs). simpl in Hv.
  set (e := drv_frame (driver w)).
  assert (Hrow : map lift3 (positions_of e (length rows2)) !! i
                 = Some (lift3 (drv_position e i))).
  { apply lookup_map_lift3, lookup_positions_of. lia. }
  destruct (lookup_lt_is_Some_2 (spheres w) (Particle.vsphere q)) as [sph0 Hs0].
  { by apply (Forall_lookup_1 _ _ _ _ Hsph Hq). }
  exists (move_sphere (lift3 (drv_position e i)) sph0).
  unfold after_frame. cbn [driver spheres]. fold e. split_and!.
  - unfold Particle.pos. rewrite Hv.
    apply (read_ok _ _ (map lift3 (positions_of e (length rows2)))).
    + simpl. rewrite Hpos. apply list_lookup_insert_eq. by apply lookup_lt_Some in Ha3.
    + exact Hrow.
  - rewrite Hvs. by apply (moved_at _ _ _ i); [apply Hnd| | |].
  - reflexivity.
Qed.

Lemma driver_calls_moves rest ps :
  List.filter is_driver_call (moves rest ps) = [].
Proof.
  unfold moves. revert rest. induction ps as [|p ps IH]; intros [|xyz rest];
    simpl; try reflexivity. apply IH.
Qed.

Lemma show_flags_moves rest ps : show_flags (moves rest ps) = [].
Proof.
  unfold moves. revert rest. induction ps as [|p ps IH]; intros [|xyz rest];
    simpl; try reflexivity. apply IH.
Qed.

(** X10. An iteration of [run] changes nothing about a sphere but its
    position, and nothing about the sizes: the size buffer is as it was,
    every sphere keeps its radius, colour, resolution and trail, no sphere
    is created or added to a plotter, and the only calls to the driver are
    [collision_check], [boundary_check], [update] and [get_positions]. *)
Theorem frame_changes_positions_only (self : ParticleSimulation.t) w
    (reset_cam : bool) (self' : ParticleSimulation.t) (reset_cam' escaped : bool) w' :
  reachable self w ->
  ParticleSimulation.run_body self reset_cam w = Ret (self', reset_cam', escaped) w' ->
  arr_1d w' = arr_1d w /\
  ParticleSimulation.__sizes self' = ParticleSimulation.__sizes self /\
  length (spheres w') = length (spheres w) /\
  (forall s sph', spheres w' !! s = Some sph' ->
     exists sph, spheres w !! s = Some sph /\
       s_r sph' = s_r sph /\ s_c sph' = s_c sph /\
       s_res sph' = s_res sph /\ s_trail sph' = s_trail sph) /\
  (forall l P', plotters w' !! l = Some P' ->
     exists P, plotters w !! l = Some P /\ pl_actors P' = pl_actors P) /\
  exists new positions,
    ParticleSimulation.__positions self = Some positions /\
    events w' = events w ++ new /\
    driver_calls new = [EvCollisionCheck; EvBoundaryCheck; EvUpdate;
                        EvGetPositions positions].
Proof.
  intros Hreach Hrun.
  destruct (reachable_consistent _ _ Hreach) as (l2 & l3 & ps & rows2 & Hc).
  destruct (run_body_inv _ _ _ _ _ _ _ _ _ Hc Hrun) as (l & P & _ & HP & Hr & ->).
  injection Hr as -> _ _.
  destruct Hc as (H2 & H3 & Hps & Hpos & Ha2 & Ha3 & Hlen & Hsph).
  unfold after_frame. simpl. split_and!; try done.
  - apply length_moved.
  - intros s sph' Hs. by apply moved_attrs in Hs.
  - intros l' P' Hl'. destruct (decide (l' = l)) as [->|Hne].
    + rewrite list_lookup_insert_eq in Hl' by (by apply lookup_lt_Some in HP).
      injection Hl' as <-. by exists P.
    + rewrite list_lookup_insert_ne in Hl' by done. by exists P'.
  - eexists _, l2. split; [done|]. split; [reflexivity|].
    unfold frame_calls, driver_calls, step_calls.
    rewrite !List.filter_app, driver_calls_moves. reflexivity.
Qed.

(** ** When [run] does not return *)

Lemma run_loop_keeps_running : forall fuel self w positions positions_3d ps rows2 l P
    reset_cam,
  consistent_at self w positions positions_3d ps rows2 ->
  ParticleSimulation.__plt self = Some l -> plotters w !! l = Some P ->
  (forall j, 1 <= j -> escaped_after P j = false) ->
  exists self' w',
    ParticleSimulation.run_loop fuel self reset_cam w
      = ParticleSimulation.Running self'
          (match fuel with O => reset_cam | S _ => false end) w' /\
    shows w' = shows w ++ camera_flags reset_cam fuel /\
    driver w' = Nat.iter fuel drv_frame (driver w).
Proof.
  induction fuel as [|fuel IH];
    intros self w positions positions_3d ps rows2 l P reset_cam Hc Hplt HP Hnot.
  - exists self, w. simpl. by rewrite app_nil_r.
  - cbn [ParticleSimulation.run_loop].
    pose proof (run_body_shows self reset_cam w) as Hshows.
    rewrite (run_body_ok self w _ _ _ _ l P reset_cam Hc Hplt HP) in *.
    destruct Hshows as [Hshows _].
    pose proof (after_frame_consistent self w _ _ _ _ l P reset_cam Hc) as Hc'.
    assert (Hone : default false (pl_escaped P (S (pl_frames P))) = false).
    { pose proof (Hnot 1 (le_n 1)) as H1. unfold escaped_after in H1.
      by rewrite Nat.add_1_r in H1. }
    rewrite Hone.
    destruct (IH _ _ _ _ _ _ l (shown P) false Hc') as (self' & w' & Hrun & Hsh & Hdrv).
    + done.
    + unfold after_frame. simpl. apply list_lookup_insert_eq.
      by apply lookup_lt_Some in HP.
    + intros j Hj. unfold escaped_after, shown. simpl.
      rewrite <- Nat.add_succ_r. apply Hnot. lia.
    + exists self', w'. split_and!.
      * rewrite Hrun. by destruct fuel.
      * rewrite Hsh, Hshows, camera_flags_false. by rewrite <- app_assoc.
      * rewrite Hdrv, Nat.iter_succ_r. reflexivity.
Qed.

(** X11. [run] returns only when [escaped] is seen set.  If it never is, in
    particular if the plotter has no such attribute, so that the code reads
    its default [False], then however many iterations are made the loop is
    still running: it has shown one frame and stepped the driver once per
    iteration, the first frame with [resetcam=True] and the others without. *)
Theorem run_never_returns_unless_escaped (self : ParticleSimulation.t) w
    (l : loc) (P : plotter) (fuel : nat) :
  reachable self w ->
  ParticleSimulation.__plt self = Some l -> plotters w !! l = Some P ->
  (forall j, 1 <= j -> escaped_after P j = false) ->
  exists self' w',
    ParticleSimulation.run fuel self w
      = ParticleSimulation.Running self'
          (match fuel with O => true | S _ => false end) w' /\
    show_flags (events w') = show_flags (events w) ++ camera_flags true fuel /\
    driver w' = Nat.iter fuel drv_frame (driver w).
Proof.
  intros Hreach Hplt HP Hnot.
  destruct (reachable_consistent self w Hreach) as (l2 & l3 & ps & rows2 & Hc).
  unfold ParticleSimulation.run, print, emit.
  set (w0 := mkWorld (arr_xy w) (arr_xyz w) (arr_1d w) (spheres w) (plotters w)
                     (driver w) (events w ++ [EvPrint "Run simulation..."])).
  assert (Hc0 : consistent_at self w0 l2 l3 ps rows2) by exact Hc.
  destruct (run_loop_keeps_running fuel self w0 l2 l3 ps rows2 l P true Hc0 Hplt HP Hnot)
    as (self' & w' & Hrun & Hsh & Hdrv).
  exists self', w'. split; [exact Hrun|]. split; [|exact Hdrv].
  unfold shows in Hsh. rewrite Hsh. unfold w0. simpl.
  unfold show_flags. rewrite flat_map_app. simpl. by rewrite app_nil_r.
Qed.

(** X13. On an object without a plotter [run] fails in its first
    iteration: the driver has made one step and the spheres have been moved
    when [show] raises [AttributeError]; no frame has been shown. *)
Theorem run_without_plotter_raises (self : ParticleSimulation.t) w (fuel : nat) :
  reachable self w ->
  ParticleSimulation.__plt self = None ->
  1 <= fuel ->
  exists w',
    ParticleSimulation.run fuel self w = ParticleSimulation.Raised AttributeError w' /\
    driver w' = drv_frame (driver w) /\
    show_flags (events w') = show_flags (events w).
Proof.
  intros Hreach Hplt Hfuel.
  destruct (reachable_consistent self w Hreach) as (l2 & l3 & ps & rows2 & Hc).
  destruct fuel as [|fuel]; [lia|].
  unfold ParticleSimulation.run, print, emit.
  set (w0 := mkWorld (arr_xy w) (arr_xyz w) (arr_1d w) (spheres w) (plotters w)
                     (driver w) (events w ++ [EvPrint "Run simulation..."])).
  assert (Hc0 : consistent_at self w0 l2 l3 ps rows2) by exact Hc.
  exists (after_run_update l2 l3 ps (length rows2) w0).
  split.
  - cbn [ParticleSimulation.run_loop].
    destruct (run_update_ok self w0 _ _ _ _ Hc0) as (Hstep & Hsync & Hupd).
    destruct Hc0 as (H2 & H3 & Hps & Hpos & Ha2 & Ha3 & Hlen & Hsph).
    unfold ParticleSimulation.run_body.
    unfold bind at 1. rewrite Hstep. unfold bind at 1. rewrite Hsync.
    unfold ParticleSimulation.run_present. rewrite Hps.
    unfold ParticleSimulation.attr. unfold bind at 1. unfold ret at 1.
    unfold bind at 1. rewrite Hupd.
    cbn [ParticleSimulation.__plt]. rewrite Hplt. reflexivity.
  - unfold after_run_update, w0. simpl. split; [reflexivity|].
    unfold show_flags, step_calls. rewrite !flat_map_app. simpl.
    fold (show_flags (moves (map lift3 (positions_of (drv_frame (driver w)) (length rows2)))
                            (Particles.__particles ps))).
    by rewrite show_flags_moves, !app_nil_r.
Qed.

(** ** What reinitialising leaves behind *)

(** X12. [__init_system] only ever adds to the world: the arrays and the
    spheres that were there are still there, unchanged; the buffers of the
    object are three new arrays; and the object's plotter still holds all
    the spheres it held, those of an earlier collection included, with the
    new spheres, one per particle and in order, after them. *)
Theorem init_system_keeps_old_spheres (self : ParticleSimulation.t) w
    (self' : ParticleSimulation.t) w' :
  ParticleSimulation.__init_system self w = Ret self' w' ->
  arr_xy w `prefix_of` arr_xy w' /\
  arr_xyz w `prefix_of` arr_xyz w' /\
  arr_1d w `prefix_of` arr_1d w' /\
  spheres w `prefix_of` spheres w' /\
  length (spheres w')
    = length (spheres w) + Z.to_nat (ParticleSimulation.n_particles self) /\
  ParticleSimulation.__positions self' = Some (length (arr_xy w)) /\
  ParticleSimulation.__positions_3d self' = Some (length (arr_xyz w)) /\
  ParticleSimulation.__sizes self' = Some (length (arr_1d w)) /\
  forall l P,
    ParticleSimulation.plt self = Some l -> plotters w !! l = Some P ->
    plotters w' !! l
    = Some (mkPlotter
              (pl_actors P ++ seq (length (spheres w))
                                  (Z.to_nat (ParticleSimulation.n_particles self)))
              (pl_frames P) (pl_escaped P)).
Proof.
  unfold ParticleSimulation.n_particles, ParticleSimulation.plt. intros Hinit.
  apply init_system_inv in Hinit
    as [Hn [(H0 & -> & ->)|(l & P & Hplt & HP & -> & ->)]].
  - unfold initialised_object, after_init_buffers. simpl. rewrite H0. simpl.
    split_and!; try done; try (by apply prefix_app_r); try lia.
    intros l P _ HP. rewrite HP, app_nil_r. by destruct P.
  - unfold initialised_object, after_init_system, after_init_loop,
      after_init_buffers. simpl.
    assert (Hk : length (zip_with sphere_of
                   (map lift3 (positions_of (drv_reinit self (driver w))
                      (Z.to_nat (ParticleSimulation.__n_particles self))))
                   (sizes_of (drv_reinit self (driver w))
                      (Z.to_nat (ParticleSimulation.__n_particles self))))
                 = Z.to_nat (ParticleSimulation.__n_particles self)).
    { rewrite length_zip_spheres, length_map, positions_of_length.
      unfold sizes_of. rewrite length_map, length_seq. lia. }
    split_and!; try done; try (by apply prefix_app_r).
    + rewrite length_app, Hk. reflexivity.
    + intros l' P' Hl' HP'. rewrite Hplt in Hl'. injection Hl' as <-.
      rewrite HP in HP'. injection HP' as <-. rewrite Hk.
      apply list_lookup_insert_eq. by apply lookup_lt_Some in HP.
Qed.
(** ** How the calls compose *)

Lemma placed_built l a i s rest szs :
  placed a i (built l a i s rest szs) = built l a i s rest szs.
Proof.
  revert i s szs. induction rest as [|r rest IH]; intros i s [|sz szs];
    simpl; try reflexivity. by rewrite IH.
Qed.

Lemma moved_built l a : forall rest i szs (pre : list sphere),
  moved rest (built l a i (length pre) rest szs) (pre ++ zip_with sphere_of rest szs)
  = pre ++ zip_with sphere_of rest szs.
Proof.
  induction rest as [|r rest IH]; intros i [|sz szs] pre; simpl; try reflexivity.
  rewrite <- (Nat.add_0_r (length pre)) at 2. rewrite alter_app_r. simpl.
  change (move_sphere r (sphere_of r sz)) with (sphere_of r sz).
  rewrite (app_assoc pre [sphere_of r sz]
             (zip_with sphere_of rest szs)) at 1.
  replace (S (length pre)) with (length (pre ++ [sphere_of r sz]))
    by (rewrite length_app; simpl; lia).
  rewrite (IH (S i) szs (pre ++ [sphere_of r sz])).
  by rewrite <- app_assoc.
Qed.

(** X14. [update] right after the constructor changes nothing but the
    trace: every particle already shows its row and every sphere already
    sits there, so the particles, the spheres, the arrays and the plotters
    come out as they went in. *)
Theorem update_after_init_changes_nothing (plt : option loc) (a s : loc) w
    (ps : Particles.t) w1 :
  Particles.__init__ plt a s w = Ret ps w1 ->
  exists w2,
    Particles.update ps w1 = Ret ps w2 /\
    spheres w2 = spheres w1 /\ plotters w2 = plotters w1 /\
    arr_xy w2 = arr_xy w1 /\ arr_xyz w2 = arr_xyz w1 /\ arr_1d w2 = arr_1d w1 /\
    driver w2 = driver w1.
Proof.
  intros Hinit.
  destruct (Particles_init_inv _ _ _ _ _ _ Hinit)
    as (rows & szs & Ha & Hs & Harr & _ & Hpos & Hlen & Hps).
  assert (Ha1 : arr_xyz w1 !! Particles.__positions ps = Some rows)
    by (by rewrite Hpos, Harr).
  assert (Hall : Forall (fun p => Particle.vsphere p < length (spheres w1))
                        (Particles.__particles ps)).
  { apply Forall_lookup. intros j p Hj. by apply Hps in Hj as (_ & _ & Hv). }
  exists (mkWorld (arr_xy w1) (arr_xyz w1) (arr_1d w1) (spheres w1) (plotters w1)
                  (driver w1) (events w1 ++ moves rows (Particles.__particles ps))).
  split; [|by split_and!].
  rewrite (Particles_update_ok ps rows w1 Ha1) by (done || lia).
  apply Particles_init_cases in Hinit
    as (rows0 & szs0 & Ha0 & Hs0 & [[Hnil ->]|(l & P & -> & HP & -> & ->)]).
  - rewrite Hnil. simpl. destruct ps as [p1 p2 p3 p4]. simpl in *. by subst.
  - rewrite Ha in Ha0. injection Ha0 as <-. rewrite Hs in Hs0. injection Hs0 as <-.
    unfold after_init_loop. simpl.
    by rewrite placed_built, moved_built.
Qed.

(** X15. The setter of [plt] does not rebuild anything: frames are then
    shown on the new plotter, but no sphere is added to it; it holds the
    actors it held before. *)
Theorem set_plt_does_not_move_spheres (self : ParticleSimulation.t) w (l : loc)
    (P : plotter) (reset_cam : bool) :
  reachable self w ->
  plotters w !! l = Some P ->
  exists self1 self' escaped w' new,
    ParticleSimulation.set_plt (Some l) self w = Ret self1 w /\
    ParticleSimulation.plt self1 = Some l /\
    ParticleSimulation.__particles self1 = ParticleSimulation.__particles self /\
    ParticleSimulation.run_body self1 reset_cam w = Ret (self', false, escaped) w' /\
    events w' = events w ++ new ++ [EvShow l reset_cam 1%Z] /\
    plotters w' !! l = Some (mkPlotter (pl_actors P) (S (pl_frames P)) (pl_escaped P)).
Proof.
  intros Hreach HP.
  destruct (reachable_consistent self w Hreach) as (l2 & l3 & ps & rows2 & Hc).
  set (self1 := ParticleSimulation.mk
         (ParticleSimulation.__n_particles self) (ParticleSimulation.__r_min self)
         (ParticleSimulation.__r_max self) (ParticleSimulation.__v_max self)
         (Some l) (ParticleSimulation.__initialised self)
         (ParticleSimulation.__particles self)
         (ParticleSimulation.__positions self) (ParticleSimulation.__positions_3d self)
         (ParticleSimulation.__sizes self)).
  assert (Hc1 : consistent_at self1 w l2 l3 ps rows2) by exact Hc.
  exists self1. eexists _, _, _, _. split; [reflexivity|].
  split; [reflexivity|]. split; [reflexivity|].
  split; [exact (run_body_ok self1 w _ _ _ _ l P reset_cam Hc1 eq_refl HP)|].
  unfold after_frame, frame_calls. simpl. split.
  - instantiate (1 := step_calls l2
        ++ moves (map lift3 (positions_of (drv_frame (driver w)) (length rows2)))
                 (Particles.__particles ps)).
    reflexivity.
  - apply list_lookup_insert_eq. by apply lookup_lt_Some in HP.
Qed.

(** X16. Whether a reinitialising setter deallocates depends on the flag
    [initialised] alone, and the flag can be set from outside: after
    [initialised] has been assigned [flag], the setter of [r_min] calls
    [deallocate_system] first if [flag] is true and not at all otherwise,
    and in both cases leaves the flag set. *)
Theorem deallocation_follows_the_flag (self : ParticleSimulation.t) w (flag : bool)
    (v : double) (self1 : ParticleSimulation.t) w1 (self' : ParticleSimulation.t) w' :
  ParticleSimulation.set_initialised flag self w = Ret self1 w1 ->
  ParticleSimulation.set_r_min v self1 w1 = Ret self' w' ->
  w1 = w /\
  ParticleSimulation.initialised self1 = flag /\
  ParticleSimulation.initialised self' = true /\
  exists new,
    events w' = events w ++ new /\
    driver_calls new
    = (if flag then [EvDeallocate] else [])
      ++ [EvInit (ParticleSimulation.n_particles self) v
            (ParticleSimulation.r_max self) (ParticleSimulation.v_max self);
          EvGetSizes (length (arr_1d w)); EvGetPositions (length (arr_xy w))].
Proof.
  intros Hflag Hinit. injection Hflag as <- <-.
  unfold ParticleSimulation.set_r_min in Hinit. simpl in Hinit.
  split; [reflexivity|]. split; [reflexivity|].
  apply init_system_inv in Hinit
    as [Hn [(H0 & -> & ->)|(l & P & Hplt & HP & -> & ->)]].
  - split; [reflexivity|]. eexists.
    unfold after_init_buffers, init_calls. simpl. split; [reflexivity|].
    unfold driver_calls. rewrite List.filter_app. by destruct flag.
  - split; [reflexivity|]. eexists.
    unfold after_init_system, after_init_loop, after_init_buffers, init_calls. simpl.
    split; [by rewrite <- app_assoc|].
    unfold driver_calls. rewrite !List.filter_app, driver_calls_spheres.
    destruct flag; reflexivity.
Qed.
End Further.

(** * The claims at work *)

Lemma demo_reachable : reachable demo_self demo_world.
Proof.
  apply (reach_new (Some 0) 2%Z 0.015%float 0.045%float 0.009%float (world0 3)).
  vm_compute. reflexivity.
Qed.

(** C1 on the demo object. *)
Lemma buffers_mirror_after_every_sync_witness :
  synced demo_self demo_world /\
  exists w1 w2,
    ParticleSimulation.run_step demo_self demo_world = Ret tt w1 /\
    ParticleSimulation.run_sync demo_self w1 = Ret tt w2 /\
    synced demo_self w2.
Proof.
  apply (buffers_mirror_after_every_sync demo_self demo_world).
  apply (reach_new (Some 0) 2%Z 0.015%float 0.045%float 0.009%float (world0 3)).
  vm_compute. reflexivity.
Defined.

(** C2 on the demo object. *)
Lemma init_system_lengths_witness :
  exists positions sizes ps rows2 szs,
    ParticleSimulation.__positions demo_self = Some positions /\
    ParticleSimulation.__sizes demo_self = Some sizes /\
    ParticleSimulation.__particles demo_self = Some ps /\
    arr_xy demo_world !! positions = Some rows2 /\
    arr_1d demo_world !! sizes = Some szs /\
    ParticleSimulation.n_particles demo_self = ParticleSimulation.n_particles demo_new /\
    Z.of_nat (length rows2) = ParticleSimulation.n_particles demo_self /\
    Z.of_nat (length szs) = ParticleSimulation.n_particles demo_self /\
    Z.of_nat (length (Particles.__particles ps)) = ParticleSimulation.n_particles demo_self.
Proof.
  apply (init_system_lengths demo_new (world0 3) demo_self demo_world).
  - simpl. lia.
  - vm_compute. reflexivity.
Defined.

(** C3 as claimed fails: with three positions and two sizes the constructor
    returns, and it has built two particles and registered two spheres. *)
Lemma Particles_init_mismatch_returns :
  (exists rows szs,
     arr_xyz world_3_2 !! 0 = Some rows /\ arr_1d world_3_2 !! 0 = Some szs /\
     length rows = 3 /\ length szs = 2) /\
  Particles.__init__ (Some 0) 0 0 world_3_2 = Ret demo_collection demo_collection_world /\
  length (Particles.__particles demo_collection) = 2 /\
  length (spheres demo_collection_world) = 2.
Proof.
  split; [eexists _, _; repeat split; reflexivity|].
  split; [vm_compute; reflexivity|]. split; vm_compute; reflexivity.
Qed.

(** C3, as the code has it, on three positions and two sizes. *)
Lemma Particles_init_truncates_witness :
  exists ps w',
    Particles.__init__ (Some 0) 0 0 world_3_2 = Ret ps w' /\
    length (Particles.__particles ps) = Nat.min 3 2 /\
    length (spheres w') = length (spheres world_3_2) + Nat.min 3 2 /\
    map Particle.vsphere (Particles.__particles ps)
      = seq (length (spheres world_3_2)) (Nat.min 3 2) /\
    plotters w' !! 0
      = Some (mkPlotter
                (pl_actors (mkPlotter [] 0 (fun _ => None))
                 ++ seq (length (spheres world_3_2)) (Nat.min 3 2))
                (pl_frames (mkPlotter [] 0 (fun _ => None)))
                (pl_escaped (mkPlotter [] 0 (fun _ => None)))) /\
    events w'
      = events world_3_2
        ++ flat_map (fun sph => [EvSphere sph; EvAdd 0 sph])
             (seq (length (spheres world_3_2)) (Nat.min 3 2)).
Proof.
  apply (Particles_init_truncates 0 (mkPlotter [] 0 (fun _ => None)) 0 0
           [(0%float, 0%float, 0%float); (1%float, 1%float, 0%float);
            (2%float, 2%float, 0%float)]
           [0.5%float; 0.25%float] world_3_2).
  - reflexivity.
  - reflexivity.
  - reflexivity.
  - simpl. lia.
Defined.

(** C4 on the demo object: ESC during the third frame, three iterations. *)
Lemma run_exits_after_k_frames_witness :
  exists positions ps rows2 self' w',
    ParticleSimulation.__positions demo_self = Some positions /\
    ParticleSimulation.__particles demo_self = Some ps /\
    arr_xy demo_world !! positions = Some rows2 /\
    ParticleSimulation.run 5 demo_self demo_world = ParticleSimulation.Exited self' w' /\
    events w' = events demo_world ++ EvPrint "Run simulation..."
                  :: run_calls positions 0 ps (length rows2) 3 (driver demo_world) true /\
    plotters w' !! 0 = Some (mkPlotter (pl_actors demo_plotter)
                               (pl_frames demo_plotter + 3) (pl_escaped demo_plotter)).
Proof.
  apply (run_exits_after_k_frames demo_self demo_world 0 demo_plotter 3 5).
  - exact demo_reachable.
  - vm_compute. reflexivity.
  - vm_compute. reflexivity.
  - lia.
  - intros j Hj. destruct j as [|[|[|j]]]; try lia; vm_compute; reflexivity.
  - vm_compute. reflexivity.
  - lia.
Defined.

(** C6 on the demo object: from two particles to three, and a new bound. *)
Lemma setters_deallocate_then_init_witness :
  reinitialised (ParticleSimulation.set_n_particles 3 demo_self demo_world) demo_world
    3 (ParticleSimulation.r_min demo_self) (ParticleSimulation.r_max demo_self)
    (ParticleSimulation.v_max demo_self) /\
  reinitialised (ParticleSimulation.set_r_min 0.02%float demo_self demo_world) demo_world
    (ParticleSimulation.n_particles demo_self) 0.02%float
    (ParticleSimulation.r_max demo_self) (ParticleSimulation.v_max demo_self) /\
  reinitialised (ParticleSimulation.set_r_max 0.02%float demo_self demo_world) demo_world
    (ParticleSimulation.n_particles demo_self) (ParticleSimulation.r_min demo_self)
    0.02%float (ParticleSimulation.v_max demo_self) /\
  reinitialised (ParticleSimulation.set_v_max 0.02%float demo_self demo_world) demo_world
    (ParticleSimulation.n_particles demo_self) (ParticleSimulation.r_min demo_self)
    (ParticleSimulation.r_max demo_self) 0.02%float.
Proof.
  apply (setters_deallocate_then_init demo_self demo_world 0 demo_plotter 3 0.02%float).
  - vm_compute. reflexivity.
  - vm_compute. reflexivity.
  - vm_compute. reflexivity.
  - lia.
  - vm_compute. discriminate.
Defined.

(** C7 as claimed fails: on the demo object, whose flag [initialised] is set,
    two calls of [__del__] in a row make two deallocations, not one. *)
Lemma del_twice_deallocates_twice :
  ParticleSimulation.initialised demo_self = true /\
  exists w1 w2,
    ParticleSimulation.__del__ demo_self demo_world = Ret tt w1 /\
    ParticleSimulation.__del__ demo_self w1 = Ret tt w2 /\
    driver_calls (drop (length (events demo_world)) (events w2))
    = [EvDeallocate; EvDeallocate].
Proof.
  split; [vm_compute; reflexivity|].
  eexists _, _. split; [reflexivity|]. split; [reflexivity|].
  vm_compute. reflexivity.
Qed.

(** C8 on the demo particle, built with radius 0.25 and resolution 12. *)
Lemma radius_and_res_setters_keep_sphere_witness :
  exists p1 p2 sph,
    Particle.set_r 0.5%float demo_particle demo_particle_world
      = Ret p1 demo_particle_world /\
    Particle.r p1 = 0.5%float /\
    Particle.vsphere p1 = Particle.vsphere demo_particle /\
    Particle.set_res 24 demo_particle demo_particle_world
      = Ret p2 demo_particle_world /\
    Particle.res p2 = 24%Z /\
    Particle.vsphere p2 = Particle.vsphere demo_particle /\
    spheres demo_particle_world !! Particle.vsphere demo_particle = Some sph /\
    s_r sph = 0.25%float /\ s_res sph = 12%Z.
Proof.
  apply (radius_and_res_setters_keep_sphere (Some 0) (View 0 1) 0.25%float "red"
           12 true world_3_2 demo_particle demo_particle_world 0.5%float 24).
  vm_compute. reflexivity.
Defined.

(** C9 on the demo particle, built with ['red']. *)
Lemma color_argument_is_ignored_witness :
  Particle.color demo_particle = "gray" /\
  (exists sph, spheres demo_particle_world !! Particle.vsphere demo_particle = Some sph /\
               s_c sph = "gray") /\
  Particle.__init__ (Some 0) (View 0 1) 0.25%float "gray" 12 true world_3_2
    = Ret demo_particle demo_particle_world /\
  forall c : string,
    exists p', Particle.set_color c demo_particle demo_particle_world
                 = Ret p' demo_particle_world /\
               Particle.color p' = c.
Proof.
  apply (color_argument_is_ignored (Some 0) (View 0 1) 0.25%float "red" 12 true
           world_3_2 demo_particle demo_particle_world).
  vm_compute. reflexivity.
Defined.

(** C10 on the demo collection, built from three positions and two sizes. *)
Lemma update_stays_in_range_witness :
  exists rows szs,
    arr_xyz world_3_2 !! 0 = Some rows /\ arr_1d world_3_2 !! 0 = Some szs /\
    length (Particles.__particles demo_collection) = Nat.min (length rows) (length szs) /\
    forall rows' : list vec3, length rows' = length rows ->
      exists ps' w2,
        Particles.update demo_collection (overwrite 0 rows' demo_collection_world)
          = Ret ps' w2 /\
        length (Particles.__particles ps') = length (Particles.__particles demo_collection) /\
        events w2
          = events demo_collection_world
            ++ zip_with EvSpherePos
                 (map Particle.vsphere (Particles.__particles demo_collection)) rows' /\
        forall i p', Particles.__particles ps' !! i = Some p' ->
          Particle.pos p' = View 0 i /\
          exists xyz sph,
            rows' !! i = Some xyz /\
            np.read (Particle.pos p') w2 = Ret xyz w2 /\
            spheres w2 !! Particle.vsphere p' = Some sph /\
            s_pos sph = xyz.
Proof.
  apply (update_stays_in_range (Some 0) 0 0 world_3_2 demo_collection
           demo_collection_world).
  vm_compute. reflexivity.
Defined.

(** * The further properties at work *)

(** X1 with a count of -1, on the demo object. *)
Lemma negative_count_raises_witness :
  ParticleSimulation.__init__ (Some 0) (-1) 0.015%float 0.045%float 0.009%float demo_world
    = Raise ValueError demo_world /\
  (ParticleSimulation.initialised demo_self = true ->
   ParticleSimulation.set_n_particles (-1) demo_self demo_world
   = Raise ValueError
       (mkWorld (arr_xy demo_world) (arr_xyz demo_world) (arr_1d demo_world)
                (spheres demo_world) (plotters demo_world)
                (drv_deallocate_system (driver demo_world))
                (events demo_world ++ [EvDeallocate]))).
Proof.
  apply (negative_count_raises demo_self demo_world (Some 0) (-1)
           0.015%float 0.045%float 0.009%float).
  lia.
Defined.

(** X2 with the defaults of the constructor. *)
Lemma constructor_without_plotter_witness :
  exists w',
    ParticleSimulation.__init__ None ParticleSimulation.default_n_particles
      ParticleSimulation.default_r_min ParticleSimulation.default_r_max
      ParticleSimulation.default_v_max (world0 3) = Raise AttributeError w' /\
    events w' = events (world0 3)
                ++ [EvPrint "Initialise system...";
                    EvInit ParticleSimulation.default_n_particles
                      ParticleSimulation.default_r_min ParticleSimulation.default_r_max
                      ParticleSimulation.default_v_max;
                    EvGetSizes (length (arr_1d (world0 3)));
                    EvGetPositions (length (arr_xy (world0 3)));
                    EvSphere (length (spheres (world0 3)))] /\
    driver w' = drv_init_system ParticleSimulation.default_n_particles
                  ParticleSimulation.default_r_min ParticleSimulation.default_r_max
                  ParticleSimulation.default_v_max (driver (world0 3)) /\
    length (spheres w') = S (length (spheres (world0 3))) /\
    plotters w' = plotters (world0 3).
Proof.
  apply (constructor_without_plotter ParticleSimulation.default_n_particles
           ParticleSimulation.default_r_min ParticleSimulation.default_r_max
           ParticleSimulation.default_v_max (world0 3)).
  unfold ParticleSimulation.default_n_particles. lia.
Defined.

(** X3 without a plotter. *)
Lemma zero_particles_need_no_plotter_witness :
  exists self' w' positions positions_3d sizes ps,
    ParticleSimulation.__init_system empty_new (world0 3) = Ret self' w' /\
    ParticleSimulation.__positions self' = Some positions /\
    ParticleSimulation.__positions_3d self' = Some positions_3d /\
    ParticleSimulation.__sizes self' = Some sizes /\
    ParticleSimulation.__particles self' = Some ps /\
    ParticleSimulation.initialised self' = true /\
    Particles.__particles ps = [] /\
    arr_xy w' !! positions = Some [] /\
    arr_xyz w' !! positions_3d = Some [] /\
    arr_1d w' !! sizes = Some [] /\
    spheres w' = spheres (world0 3) /\ plotters w' = plotters (world0 3).
Proof.
  apply (zero_particles_need_no_plotter empty_new (world0 3)). reflexivity.
Defined.

(** X4 on the demo object. *)
Lemma constructor_driver_calls_witness :
  (exists new,
     events demo_world = events (world0 3) ++ new /\
     driver_calls new
     = [EvInit 2 0.015%float 0.045%float 0.009%float;
        EvGetSizes (length (arr_1d (world0 3)));
        EvGetPositions (length (arr_xy (world0 3)))]) /\
  ParticleSimulation.initialised demo_self = true /\
  ParticleSimulation.n_particles demo_self = 2%Z /\
  ParticleSimulation.r_min demo_self = 0.015%float /\
  ParticleSimulation.r_max demo_self = 0.045%float /\
  ParticleSimulation.v_max demo_self = 0.009%float /\
  ParticleSimulation.plt demo_self = Some 0.
Proof.
  apply (constructor_driver_calls (Some 0) 2 0.015%float 0.045%float 0.009%float
           (world0 3) demo_self demo_world).
  vm_compute. reflexivity.
Defined.

(** X5 on the demo collection. *)
Lemma collection_particles_have_defaults_witness :
  exists rows szs,
    arr_xyz world_3_2 !! 0 = Some rows /\ arr_1d world_3_2 !! 0 = Some szs /\
    forall i p, Particles.__particles demo_collection !! i = Some p ->
      exists xyz sz,
        rows !! i = Some xyz /\ szs !! i = Some sz /\
        Particle.pos p = View 0 i /\ Particle.r p = sz /\
        Particle.color p = "gray" /\ Particle.res p = 8%Z /\
        Particle.use_trail p = false /\
        Particle.vsphere p = length (spheres world_3_2) + i /\
        spheres demo_collection_world !! Particle.vsphere p
          = Some (mkSphere xyz sz "gray" 8 None).
Proof.
  apply (collection_particles_have_defaults (Some 0) 0 0 world_3_2 demo_collection
           demo_collection_world).
  vm_compute. reflexivity.
Defined.

(** X6 on the demo particle, built with a trail. *)
Lemma Particle_init_registers_one_sphere_witness :
  exists l P rows xyz,
    Some 0 = Some l /\ plotters world_3_2 !! l = Some P /\
    arr_xyz world_3_2 !! v_base (View 0 1) = Some rows /\
    rows !! v_row (View 0 1) = Some xyz /\
    Particle.pos demo_particle = View 0 1 /\ Particle.r demo_particle = 0.25%float /\
    Particle.res demo_particle = 12%Z /\
    Particle.use_trail demo_particle = true /\
    Particle.vsphere demo_particle = length (spheres world_3_2) /\
    spheres demo_particle_world
      = spheres world_3_2 ++ [mkSphere xyz 0.25%float "gray" 12
                                (if true then Some (mkTrail 1 1 50 "g") else None)] /\
    plotters demo_particle_world
      = <[l := mkPlotter (pl_actors P ++ [Particle.vsphere demo_particle])
                         (pl_frames P) (pl_escaped P)]> (plotters world_3_2) /\
    events demo_particle_world
      = events world_3_2 ++ EvSphere (Particle.vsphere demo_particle)
          :: (if true then [EvAddTrail (Particle.vsphere demo_particle)] else [])
          ++ [EvAdd l (Particle.vsphere demo_particle)] /\
    arr_xy demo_particle_world = arr_xy world_3_2 /\
    arr_xyz demo_particle_world = arr_xyz world_3_2 /\
    arr_1d demo_particle_world = arr_1d world_3_2.
Proof.
  apply (Particle_init_registers_one_sphere (Some 0) (View 0 1) 0.25%float "red" 12
           true world_3_2 demo_particle demo_particle_world).
  vm_compute. reflexivity.
Defined.

(** X7 on the demo particle, moved from row 1 to row 2. *)
Lemma set_pos_moves_only_its_sphere_witness :
  exists rows xyz sph,
    arr_xyz demo_particle_world !! v_base (View 0 2) = Some rows /\
    rows !! v_row (View 0 2) = Some xyz /\
    spheres demo_particle_world !! Particle.vsphere demo_particle = Some sph /\
    Particle.pos demo_moved_particle = View 0 2 /\
    Particle.r demo_moved_particle = Particle.r demo_particle /\
    Particle.color demo_moved_particle = Particle.color demo_particle /\
    Particle.res demo_moved_particle = Particle.res demo_particle /\
    Particle.use_trail demo_moved_particle = Particle.use_trail demo_particle /\
    Particle.vsphere demo_moved_particle = Particle.vsphere demo_particle /\
    spheres demo_moved_world !! Particle.vsphere demo_particle
      = Some (mkSphere xyz (s_r sph) (s_c sph) (s_res sph) (s_trail sph)) /\
    (forall s, s <> Particle.vsphere demo_particle ->
       spheres demo_moved_world !! s = spheres demo_particle_world !! s) /\
    arr_xy demo_moved_world = arr_xy demo_particle_world /\
    arr_xyz demo_moved_world = arr_xyz demo_particle_world /\
    arr_1d demo_moved_world = arr_1d demo_particle_world /\
    plotters demo_moved_world = plotters demo_particle_world /\
    driver demo_moved_world = driver demo_particle_world /\
    events demo_moved_world
      = events demo_particle_world ++ [EvSpherePos (Particle.vsphere demo_particle) xyz].
Proof.
  apply (set_pos_moves_only_its_sphere (View 0 2) demo_particle demo_particle_world
           demo_moved_particle demo_moved_world).
  vm_compute. reflexivity.
Defined.

(** X8 on the demo collection. *)
Lemma pos_is_a_live_view_witness :
  exists rows,
    arr_xyz world_3_2 !! 0 = Some rows /\
    forall rows' : list vec3, length rows' = length rows ->
      forall i p, Particles.__particles demo_collection !! i = Some p ->
        exists old new sph,
          rows !! i = Some old /\ rows' !! i = Some new /\
          np.read (Particle.pos p) (overwrite 0 rows' demo_collection_world)
            = Ret new (overwrite 0 rows' demo_collection_world) /\
          spheres (overwrite 0 rows' demo_collection_world) !! Particle.vsphere p
            = Some sph /\
          s_pos sph = old.
Proof.
  apply (pos_is_a_live_view (Some 0) 0 0 world_3_2 demo_collection
           demo_collection_world).
  vm_compute. reflexivity.
Defined.

(** X9 on the first iteration of the demo object. *)
Lemma frame_puts_spheres_at_positions_witness :
  driver demo_frame_world = drv_frame (driver demo_world) /\
  exists ps',
    ParticleSimulation.__particles demo_frame_self = Some ps' /\
    forall i p, Particles.__particles ps' !! i = Some p ->
      exists sph,
        np.read (Particle.pos p) demo_frame_world
          = Ret (lift3 (drv_position (driver demo_frame_world) i)) demo_frame_world /\
        spheres demo_frame_world !! Particle.vsphere p = Some sph /\
        s_pos sph = lift3 (drv_position (driver demo_frame_world) i).
Proof.
  apply (frame_puts_spheres_at_positions demo_self demo_world true demo_frame_self
           false false demo_frame_world).
  - exact demo_reachable.
  - vm_compute. reflexivity.
Defined.

(** X10 on the first iteration of the demo object. *)
Lemma frame_changes_positions_only_witness :
  arr_1d demo_frame_world = arr_1d demo_world /\
  ParticleSimulation.__sizes demo_frame_self = ParticleSimulation.__sizes demo_self /\
  length (spheres demo_frame_world) = length (spheres demo_world) /\
  (forall s sph', spheres demo_frame_world !! s = Some sph' ->
     exists sph, spheres demo_world !! s = Some sph /\
       s_r sph' = s_r sph /\ s_c sph' = s_c sph /\
       s_res sph' = s_res sph /\ s_trail sph' = s_trail sph) /\
  (forall l P', plotters demo_frame_world !! l = Some P' ->
     exists P, plotters demo_world !! l = Some P /\ pl_actors P' = pl_actors P) /\
  exists new positions,
    ParticleSimulation.__positions demo_self = Some positions /\
    events demo_frame_world = events demo_world ++ new /\
    driver_calls new = [EvCollisionCheck; EvBoundaryCheck; EvUpdate;
                        EvGetPositions positions].
Proof.
  apply (frame_changes_positions_only demo_self demo_world true demo_frame_self
           false false demo_frame_world).
  - exact demo_reachable.
  - vm_compute. reflexivity.
Defined.

Lemma quiet_reachable : reachable quiet_self quiet_world.
Proof.
  apply (reach_new (Some 0) 2%Z 0.015%float 0.045%float 0.009%float world_3_2).
  vm_compute. reflexivity.
Qed.

(** X11 on a plotter without [escaped], after four iterations. *)
Lemma run_never_returns_unless_escaped_witness :
  exists self' w',
    ParticleSimulation.run 4 quiet_self quiet_world
      = ParticleSimulation.Running self' false w' /\
    show_flags (events w') = show_flags (events quiet_world) ++ camera_flags true 4 /\
    driver w' = Nat.iter 4 drv_frame (driver quiet_world).
Proof.
  apply (run_never_returns_unless_escaped quiet_self quiet_world 0 quiet_plotter 4).
  - exact quiet_reachable.
  - vm_compute. reflexivity.
  - vm_compute. reflexivity.
  - intros j Hj. reflexivity.
Defined.

(** X12 on the demo object resized from two particles to three: its world
    holds one array of each shape and two spheres, both among the actors of
    its plotter, when [__init_system] runs again. *)
Lemma init_system_keeps_old_spheres_witness :
  (length (arr_xy demo_world) = 1 /\ length (arr_xyz demo_world) = 1 /\
   length (arr_1d demo_world) = 1 /\ length (spheres demo_world) = 2 /\
   ParticleSimulation.plt demo_resized_new = Some 0 /\
   plotters demo_world !! 0 = Some demo_plotter /\
   pl_actors demo_plotter = [0; 1]) /\
  arr_xy demo_world `prefix_of` arr_xy demo_resized_world /\
  arr_xyz demo_world `prefix_of` arr_xyz demo_resized_world /\
  arr_1d demo_world `prefix_of` arr_1d demo_resized_world /\
  spheres demo_world `prefix_of` spheres demo_resized_world /\
  length (spheres demo_resized_world)
    = length (spheres demo_world)
      + Z.to_nat (ParticleSimulation.n_particles demo_resized_new) /\
  ParticleSimulation.__positions demo_resized_self = Some (length (arr_xy demo_world)) /\
  ParticleSimulation.__positions_3d demo_resized_self
    = Some (length (arr_xyz demo_world)) /\
  ParticleSimulation.__sizes demo_resized_self = Some (length (arr_1d demo_world)) /\
  forall l P,
    ParticleSimulation.plt demo_resized_new = Some l ->
    plotters demo_world !! l = Some P ->
    plotters demo_resized_world !! l
    = Some (mkPlotter
              (pl_actors P ++ seq (length (spheres demo_world))
                 (Z.to_nat (ParticleSimulation.n_particles demo_resized_new)))
              (pl_frames P) (pl_escaped P)).
Proof.
  split.
  - vm_compute. by split_and!.
  - apply (init_system_keeps_old_spheres demo_resized_new demo_world
             demo_resized_self demo_resized_world).
    vm_compute. reflexivity.
Defined.

Lemma unplugged_reachable : reachable demo_unplugged demo_world.
Proof.
  apply (reach_set_plt None demo_self demo_world); [exact demo_reachable|].
  vm_compute. reflexivity.
Qed.

(** X13 on the demo object, unplugged. *)
Lemma run_without_plotter_raises_witness :
  exists w',
    ParticleSimulation.run 2 demo_unplugged demo_world
      = ParticleSimulation.Raised AttributeError w' /\
    driver w' = drv_frame (driver demo_world) /\
    show_flags (events w') = show_flags (events demo_world).
Proof.
  apply (run_without_plotter_raises demo_unplugged demo_world 2).
  - exact unplugged_reachable.
  - vm_compute. reflexivity.
  - lia.
Defined.

(** X14 on the demo collection. *)
Lemma update_after_init_changes_nothing_witness :
  exists w2,
    Particles.update demo_collection demo_collection_world = Ret demo_collection w2 /\
    spheres w2 = spheres demo_collection_world /\
    plotters w2 = plotters demo_collection_world /\
    arr_xy w2 = arr_xy demo_collection_world /\
    arr_xyz w2 = arr_xyz demo_collection_world /\
    arr_1d w2 = arr_1d demo_collection_world /\
    driver w2 = driver demo_collection_world.
Proof.
  apply (update_after_init_changes_nothing (Some 0) 0 0 world_3_2 demo_collection
           demo_collection_world).
  vm_compute. reflexivity.
Defined.

Lemma duo_reachable : reachable duo_self duo_world.
Proof.
  apply (reach_new (Some 0) 2%Z 0.015%float 0.045%float 0.009%float
           world_two_plotters).
  vm_compute. reflexivity.
Qed.

(** X15 on an object built on plotter 0, which holds its two spheres, and
    then given the spare plotter 1, which holds none. *)
Lemma set_plt_does_not_move_spheres_witness :
  (ParticleSimulation.plt duo_self = Some 0 /\
   pl_actors <$> plotters duo_world !! 0 = Some [0; 1] /\
   pl_actors duo_spare = []) /\
  exists self1 self' escaped w' new,
    ParticleSimulation.set_plt (Some 1) duo_self duo_world = Ret self1 duo_world /\
    ParticleSimulation.plt self1 = Some 1 /\
    ParticleSimulation.__particles self1 = ParticleSimulation.__particles duo_self /\
    ParticleSimulation.run_body self1 true duo_world = Ret (self', false, escaped) w' /\
    events w' = events duo_world ++ new ++ [EvShow 1 true 1%Z] /\
    plotters w' !! 1 = Some (mkPlotter (pl_actors duo_spare)
                               (S (pl_frames duo_spare)) (pl_escaped duo_spare)).
Proof.
  split.
  - vm_compute. by split_and!.
  - apply (set_plt_does_not_move_spheres duo_self duo_world 1 duo_spare true).
    + exact duo_reachable.
    + vm_compute. reflexivity.
Defined.

(** X16 on the demo object, its flag cleared. *)
Lemma deallocation_follows_the_flag_witness :
  demo_world = demo_world /\
  ParticleSimulation.initialised demo_unflagged = false /\
  ParticleSimulation.initialised demo_rebuilt_self = true /\
  exists new,
    events demo_rebuilt_world = events demo_world ++ new /\
    driver_calls new
    = (if false then [EvDeallocate] else [])
      ++ [EvInit (ParticleSimulation.n_particles demo_self) 0.02%float
            (ParticleSimulation.r_max demo_self) (ParticleSimulation.v_max demo_self);
          EvGetSizes (length (arr_1d demo_world));
          EvGetPositions (length (arr_xy demo_world))].
Proof.
  apply (deallocation_follows_the_flag demo_self demo_world false 0.02%float
           demo_unflagged demo_world demo_rebuilt_self demo_rebuilt_world).
  - vm_compute. reflexivity.
  - vm_compute. reflexivity.
Defined.
